(** * security-camera: the decision logic of [cam.py]

    A shallow embedding of the camera agent of [cam.py]: the change
    detector of [use_camera], the cascade of [analyse_image], the command
    router [message_received] and the attributes [use_camera.size] and
    [use_camera.camera_enabled] that the router and the poll loop share.

    Python's [float] is IEEE binary64; it is modelled by the Standard
    Library's executable specification [spec_float] with [prec = 53] and
    [emax = 1024].  Calls to the camera, to Amazon S3 and to Amazon
    Rekognition are answered by a [world] record; every call made is
    recorded in a trace of [event]s.  Text of ASCII characters is handled
    by computation; for other text the encoding of stdout and the Unicode
    case mappings are answers of the [world] too. *)

From Stdlib Require Import ZArith Bool List String Ascii Lia.
From Stdlib Require Import Floats.SpecFloat.
From Stdlib Require Import QArith Qabs Qpower Lqa.
Import ListNotations.

Local Open Scope string_scope.
Local Open Scope list_scope.
Local Open Scope Z_scope.

(** ** Python numbers *)

Module PyNum.

Definition prec : Z := 53.
Definition emax : Z := 1024.

(** An [int] read as a float with that very integer as mantissa. *)
Definition int_mantissa (z : Z) : spec_float :=
  match z with
  | Z0 => S754_zero false
  | Zpos p => S754_finite false p 0
  | Zneg p => S754_finite true p 0
  end.

(** [float(z)]: the nearest binary64 value, ties to even. *)
Definition float_of_int (z : Z) : spec_float :=
  binary_normalize prec emax z 0 false.

(** The value of an arithmetic expression: an [int] or a [float]. *)
Inductive number :=
| NInt (z : Z)
| NFloat (f : spec_float).

(** [1 - x] for a float [x]: the int operand is converted first. *)
Definition one_minus (x : spec_float) : spec_float :=
  SFsub prec emax (float_of_int 1) x.

(** [abs(x)] for a float [x]. *)
Definition float_abs (x : spec_float) : spec_float := SFabs x.

(** [z > f] for an int [z] and a float [f]; Python compares the two
    exactly, without rounding [z]. *)
Definition int_gt_float (z : Z) (f : spec_float) : bool :=
  match f with
  | S754_nan => false
  | S754_infinity s => s
  | S754_zero _ => z >? 0
  | S754_finite s m e =>
      let v := if s then Zneg m else Zpos m in
      match e with
      | Zneg k => z * Z.pow_pos 2 k >? v
      | _ => z >? v * 2 ^ e
      end
  end.

(** [x > f] where [f] is a float. *)
Definition gt_float (x : number) (f : spec_float) : bool :=
  match x with
  | NInt z => int_gt_float z f
  | NFloat g => SFltb f g
  end.

(** [x >= 0]. *)
Definition nonneg (x : number) : bool :=
  match x with
  | NInt z => 0 <=? z
  | NFloat g => SFleb (S754_zero false) g
  end.

End PyNum.
Export PyNum.

(** ** Values exchanged as JSON *)

#[warnings="-register-all"]
Inductive json :=
| JNull
| JBool (b : bool)
| JInt (z : Z)
| JFloat (f : spec_float)
| JStr (s : string)
| JList (l : list json)
| JDict (d : list (string * json)).

(** A dict is kept as its items in insertion order, with distinct keys. *)
Definition dict := list (string * json).

Fixpoint dict_get (d : dict) (k : string) : option json :=
  match d with
  | [] => None
  | (k', v) :: d' => if String.eqb k' k then Some v else dict_get d' k
  end.

Definition dict_has (d : dict) (k : string) : bool :=
  match dict_get d k with Some _ => true | None => false end.

(** [d[k] = v]: replaces the value in place, or appends a new item. *)
Fixpoint dict_set (d : dict) (k : string) (v : json) : dict :=
  match d with
  | [] => [(k, v)]
  | (k', v') :: d' =>
      if String.eqb k' k then (k', v) :: d' else (k', v') :: dict_set d' k v
  end.

Definition dict_keys (d : dict) : list string := map fst d.

(** ** Strings *)

(** A [str] is kept as the bytes of its UTF-8 encoding, a lone surrogate
    as its three bytes: a text of ASCII characters is kept as it is,
    equality is equality of the bytes, and so is [needle in hay] for a
    needle of ASCII characters. *)
Module PyStr.

(** [needle in hay] for two strings. *)
Fixpoint contains (needle hay : string) : bool :=
  String.prefix needle hay
  || match hay with
     | EmptyString => false
     | String _ hay' => contains needle hay'
     end.

Definition is_lower (c : ascii) : bool :=
  let n := N_of_ascii c in ((97 <=? n) && (n <=? 122))%N.

Definition is_upper (c : ascii) : bool :=
  let n := N_of_ascii c in ((65 <=? n) && (n <=? 90))%N.

Definition upper_char (c : ascii) : ascii :=
  if is_lower c then ascii_of_N (N_of_ascii c - 32) else c.

Definition lower_char (c : ascii) : ascii :=
  if is_upper c then ascii_of_N (N_of_ascii c + 32) else c.

Fixpoint lower (s : string) : string :=
  match s with
  | EmptyString => EmptyString
  | String c s' => String (lower_char c) (lower s')
  end.

(** [s.capitalize()] for a [str] of ASCII characters: the first
    character in upper case and all the others in lower case. *)
Definition capitalize_ascii (s : string) : string :=
  match s with
  | EmptyString => EmptyString
  | String c s' => String (upper_char c) (lower s')
  end.

Fixpoint ascii_only (s : string) : bool :=
  match s with
  | EmptyString => true
  | String c s' => (N_of_ascii c <? 128)%N && ascii_only s'
  end.


End PyStr.

(** Whether every [str] in a value, keys included, is of ASCII
    characters; the text [str(v)] of such a value is of ASCII characters
    too. *)
Fixpoint ascii_value (v : json) : bool :=
  match v with
  | JStr s => PyStr.ascii_only s
  | JList l => forallb ascii_value l
  | JDict d => forallb (fun kv : string * json =>
                          let (k, x) := kv in PyStr.ascii_only k && ascii_value x) d
  | _ => true
  end.

(** ** Exceptions, effects and the monad of the program *)

Inductive exn :=
| AttributeError      (* a function attribute read before it was set *)
| UnboundLocalError   (* a local variable read before it was assigned *)
| ZeroDivisionError
| OverflowError
| TypeError
| KeyError
| UnicodeDecodeError
| UnicodeEncodeError   (* [print] of a text that stdout cannot encode *)
| JSONDecodeError
| ClientError.        (* a call to S3 or to Rekognition failed *)

Inductive result (A : Type) :=
| Ok (a : A)
| Raise (e : exn).
Arguments Ok {A} a.
Arguments Raise {A} e.

(** The attributes that the program hangs on the function [use_camera];
    [None] is an attribute that no statement has set yet. *)
Record attrs := {
  size : option Z;
  camera_enabled : option bool
}.

(** What [json.loads(message.payload.decode('utf-8'))] makes of the bytes
    of a message: the two library calls either raise or give a value. *)
Inductive decoded :=
| NotUtf8
| NotJson
| Parsed (v : json).

(** What is printed: an object, a number, the bytes of a payload, or the
    text that [json.dumps(_, indent=4)] makes of a value. *)
Inductive fmt_arg :=
| Obj (v : json)
| Num (x : number)
| Bytes (p : decoded)
| Dumps (v : json).

Inductive body :=
| ImageBuffer          (* the BytesIO buffer [image] *)
| JsonText (d : dict). (* [json.dumps(d)] *)

Inductive event :=
| Print (template : string) (args : list fmt_arg)
| Capture                                        (* camera.capture(image, 'jpeg') *)
| PutObject (bucket key : string) (b : body)     (* s3.put_object *)
| DetectLabels (bucket key : string) (max_labels min_confidence : Z)
| DetectFaces (bucket key : string) (attributes : list string)
| RecognizeCelebrities (bucket key : string)
| SearchFacesByImage (collection bucket key : string)
| IndexFaces (collection bucket key external_image_id : string)
    (detection_attributes : list string)
| Connect (client_id endpoint : string) (port : Z)
| Publish (topic payload : string) (qos : Z)
| Subscribe (topic : string) (qos : Z)
| Sleep (seconds : Z).

Definition M (A : Type) : Type := attrs -> result A * attrs * list event.

Definition ret {A} (a : A) : M A := fun s => (Ok a, s, []).

Definition bind {A B} (m : M A) (f : A -> M B) : M B :=
  fun s =>
    match m s with
    | (Ok a, s1, t1) => let '(r, s2, t2) := f a s1 in (r, s2, t1 ++ t2)
    | (Raise e, s1, t1) => (Raise e, s1, t1)
    end.

Definition emit (e : event) : M unit := fun s => (Ok tt, s, [e]).
(** [print] of a text that is of ASCII characters whatever the values
    are, which every encoding of stdout takes: a constant, a number, the
    [repr] of bytes, the output of [json.dumps], or the topic of a
    delivery, which is [SUBSCRIBE_TOPIC] as the subscription has no
    wildcard.  The two calls that print a value of the message as it is
    are [print_value] below. *)
Definition print (template : string) (args : list fmt_arg) : M unit :=
  emit (Print template args).

Definition get_size : M Z :=
  fun s => match size s with
           | Some z => (Ok z, s, [])
           | None => (Raise AttributeError, s, [])
           end.
Definition set_size (z : Z) : M unit :=
  fun s => (Ok tt, {| size := Some z; camera_enabled := camera_enabled s |}, []).
Definition get_camera_enabled : M bool :=
  fun s => match camera_enabled s with
           | Some b => (Ok b, s, [])
           | None => (Raise AttributeError, s, [])
           end.
Definition set_camera_enabled (b : bool) : M unit :=
  fun s => (Ok tt, {| size := size s; camera_enabled := Some b |}, []).

(** The answer of a remote call: [None] is a call that raises. *)
Definition remote {A} (e : event) (answer : option A) : M A :=
  fun s => match answer with
           | Some a => (Ok a, s, [e])
           | None => (Raise ClientError, s, [e])
           end.

Declare Scope prog_scope.
Delimit Scope prog_scope with prog.
Notation "x <- m ;; k" := (bind m (fun x => k))
  (at level 61, m at next level, right associativity) : prog_scope.
Notation "m ;; k" := (bind m (fun _ => k))
  (at level 61, right associativity) : prog_scope.
Local Open Scope prog_scope.

Definition outcome {A} (r : result A * attrs * list event) : result A := fst (fst r).
Definition final {A} (r : result A * attrs * list event) : attrs := snd (fst r).
Definition events {A} (r : result A * attrs * list event) : list event := snd r.

Definition lift {A} (r : result A) : M A := fun s => (r, s, []).

(** ** Configuration *)

Definition CHANGE_THRESHOLD : spec_float :=
  S754_finite false 5764607523034235 (-60).   (* the float 0.005 *)
Definition SLEEP_TIME : Z := 3.
Definition CLIENT_ID := "pyzcam".
Definition PUBLISH_TOPIC := (CLIENT_ID ++ "/out")%string.
Definition SUBSCRIBE_TOPIC := (CLIENT_ID ++ "/in")%string.
Definition AWS_IOT_ENDPOINT := "<YOUR_AWS_IOT_ENDPOINT>".
Definition REKOGNITION_COLLECTION_ID := "security-camera".
Definition S3_BUCKET := "<YOUR_S3_BUCKET>".
(** [S3_IMAGE_KEY.format(t)] *)
Definition S3_IMAGE_KEY (t : string) : string :=
  ("pizero/image-" ++ t ++ ".jpg")%string.
Definition S3_SEEN_KEY := "pizero/seen.json".

(** ** The collaborators *)

(** A label of [detect_labels]: its name and its other fields. *)
Record Label := {
  Name : string;
  label_fields : dict
}.

Definition label_json (l : Label) : json :=
  JDict (("Name", JStr (Name l)) :: label_fields l).

(** The answers of the camera, the clock, S3 and Rekognition during one
    capture cycle or one command.  A remote call answers [None] when it
    raises.  The record also answers for the interpreter where a text has
    characters outside ASCII: whether stdout encodes it, and what
    [capitalize] makes of it. *)
Record world := {
  tell : Z;                                    (* image.tell() after the capture *)
  strftime : string;                           (* time.strftime('%Y%m%d%H%M%S') *)
  put_object : string -> option json;          (* by key *)
  detect_labels : string -> option (list Label);
  detect_faces : string -> option (list json);
  recognize_celebrities : string -> option (list json);
  search_faces_by_image : string -> option (list json);
  index_faces : string -> string -> option json;
  stdout_encodes : json -> bool;
    (* whether the encoding of sys.stdout takes the text [str(v)], asked
       for a value with characters outside ASCII *)
  unicode_capitalize : string -> string
    (* [s.capitalize()] by the Unicode case mappings of the interpreter,
       asked for a [str] with characters outside ASCII *)
}.

(** Whether [print] can write the text of the value [v]. *)
Definition printable (w : world) (v : json) : bool :=
  ascii_value v || stdout_encodes w v.

(** [print(template.format(v))] for a value [v] taken from the message:
    the text is encoded before anything is written, and the call raises
    when stdout cannot encode it, as for a lone surrogate. *)
Definition print_value (w : world) (template : string) (v : json) : M unit :=
  if printable w v then print template [Obj v]
  else lift (Raise UnicodeEncodeError).

(** [s.capitalize()]: the first character in title case and the others
    in lower case, by the Unicode case mappings.  On a [str] of ASCII
    characters this is computed; on any other the result is the one the
    interpreter gives. *)
Definition capitalize (w : world) (s : string) : string :=
  if PyStr.ascii_only s then PyStr.capitalize_ascii s
  else unicode_capitalize w s.

(** ** The program *)

Definition enable_camera : M unit :=
  print "Camera enabled" [] ;;
  set_size 0 ;;
  set_camera_enabled true.

Definition disable_camera : M unit :=
  print "Camera disabled" [] ;;
  set_camera_enabled false.

Definition take_picture : M unit :=
  emit Capture.

Definition upload_image_and_get_key (w : world) : M string :=
  print "Uploading image to Amazon S3..." [] ;;
  let key := S3_IMAGE_KEY (strftime w) in
  print "key = {}" [Obj (JStr key)] ;;
  response <- remote (PutObject S3_BUCKET key ImageBuffer) (put_object w key) ;;
  print "{}" [Dumps response] ;;
  ret key.

Definition upload_seen (w : world) (file : dict) : M unit :=
  print "Uploading file to Amazon S3..." [] ;;
  print "key = {}" [Obj (JStr S3_SEEN_KEY)] ;;
  response <- remote (PutObject S3_BUCKET S3_SEEN_KEY (JsonText file))
                     (put_object w S3_SEEN_KEY) ;;
  print "{}" [Dumps response].

Definition index_face (w : world) (name : string) : M unit :=
  print_value w "Indexing {}..." (JStr name) ;;
  take_picture ;;
  key <- upload_image_and_get_key w ;;
  response <- remote (IndexFaces REKOGNITION_COLLECTION_ID S3_BUCKET key name ["ALL"])
                     (index_faces w key name) ;;
  print "{}" [Dumps response].

Definition has_person (labels : list Label) : bool :=
  existsb (fun l => PyStr.contains "Person" (Name l)) labels.

Definition analyse_image (w : world) (key : string) : M unit :=
  print "Calling Amazon Rekognition..." [] ;;
  let seen : dict := [] in
  let seen := dict_set seen "Image"
                (JDict [("Bucket", JStr S3_BUCKET); ("Key", JStr key)]) in
  print "Looking for labels..." [] ;;
  labels <- remote (DetectLabels S3_BUCKET key 5 70) (detect_labels w key) ;;
  let seen := dict_set seen "Labels" (JList (map label_json labels)) in
  print "{}" [Dumps (JList (map label_json labels))] ;;
  seen <- (if has_person labels then
             print "Looking for faces..." [] ;;
             faces <- remote (DetectFaces S3_BUCKET key ["ALL"]) (detect_faces w key) ;;
             let seen := dict_set seen "FaceDetails" (JList faces) in
             print "{}" [Dumps (JList faces)] ;;
             if (0 <? Z.of_nat (List.length faces)) then
               print "Looking for celebrities..." [] ;;
               celebrities <- remote (RecognizeCelebrities S3_BUCKET key)
                                     (recognize_celebrities w key) ;;
               let seen := dict_set seen "CelebrityFaces" (JList celebrities) in
               print "{}" [Dumps (JList celebrities)] ;;
               print "Looking for known faces..." [] ;;
               matches <- remote (SearchFacesByImage REKOGNITION_COLLECTION_ID S3_BUCKET key)
                                 (search_faces_by_image w key) ;;
               let seen := dict_set seen "FaceMatches" (JList matches) in
               print "{}" [Dumps (JList matches)] ;;
               ret seen
             else ret seen
           else ret seen) ;;
  upload_seen w seen.

(** [a / b] on two ints: the quotient rounded once to the nearest float. *)
Definition int_true_divide (a b : Z) : result spec_float :=
  if b =? 0 then Raise ZeroDivisionError
  else match SFdiv prec emax (int_mantissa a) (int_mantissa b) with
       | S754_infinity _ => Raise OverflowError
       | q => Ok q
       end.

(** The right-hand sides of the two assignments to [size_change]. *)
Definition size_change_of (previous_size current_size : Z) : result number :=
  if previous_size >? 0 then
    match int_true_divide current_size previous_size with
    | Ok q => Ok (NFloat (float_abs (one_minus q)))
    | Raise e => Raise e
    end
  else Ok (NInt 0).

(** The block under [if not once:]; it gives the local [size_change],
    which stays unassigned ([None]) when the block is skipped. *)
Definition measure (w : world) (once : bool) : M (option number) :=
  if negb once then
    previous_size <- get_size ;;
    set_size (tell w) ;;
    current_size <- get_size ;;
    size_change <- lift (size_change_of previous_size current_size) ;;
    print "size: {0} - previous: {1} - change: {2}"
          [Obj (JInt current_size); Obj (JInt previous_size); Num size_change] ;;
    ret (Some size_change)
  else ret None.

(** [once or size_change > CHANGE_THRESHOLD]: the right operand is only
    evaluated when [once] is false, and reads the local [size_change]. *)
Definition trigger (once : bool) (size_change : option number) : result bool :=
  if once then Ok true
  else match size_change with
       | Some x => Ok (gt_float x CHANGE_THRESHOLD)
       | None => Raise UnboundLocalError
       end.

Definition use_camera (w : world) (once : bool) : M unit :=
  take_picture ;;
  size_change <- measure w once ;;
  go <- lift (trigger once size_change) ;;
  if go then
    key <- upload_image_and_get_key w ;;
    analyse_image w key
  else ret tt.

(** *** The command router *)

Record message := {
  payload : decoded;
  topic : string
}.

(** [json.loads(message.payload.decode('utf-8'))] *)
Definition json_loads (p : decoded) : result json :=
  match p with
  | NotUtf8 => Raise UnicodeDecodeError
  | NotJson => Raise JSONDecodeError
  | Parsed v => Ok v
  end.

(** [v == s] for a string [s]. *)
Definition eq_str (v : json) (s : string) : bool :=
  match v with
  | JStr t => String.eqb t s
  | _ => false
  end.

(** [k in v] for a string [k]. *)
Definition py_in (k : string) (v : json) : result bool :=
  match v with
  | JDict d => Ok (dict_has d k)
  | JList l => Ok (existsb (fun x => eq_str x k) l)
  | JStr s => Ok (PyStr.contains k s)
  | _ => Raise TypeError
  end.

(** [v[k]] for a string [k]. *)
Definition py_getitem (v : json) (k : string) : result json :=
  match v with
  | JDict d => match dict_get d k with
               | Some x => Ok x
               | None => Raise KeyError
               end
  | _ => Raise TypeError
  end.

(** [v.capitalize()] *)
Definition py_capitalize (w : world) (v : json) : result string :=
  match v with
  | JStr s => Ok (capitalize w s)
  | _ => Raise AttributeError
  end.

Definition newline : string := String "010" EmptyString.

Definition message_received (w : world) (message : message) : M unit :=
  print "Received a new message: " [] ;;
  print "{}" [Bytes (payload message)] ;;
  print "from topic: " [] ;;
  print "{}" [Obj (JStr (topic message))] ;;
  print ("--------------" ++ newline ++ newline)%string [] ;;
  payload <- lift (json_loads (payload message)) ;;
  has_camera <- lift (py_in "camera" payload) ;;
  if has_camera then
    state <- lift (py_getitem payload "camera") ;;
    if eq_str state "enable" then enable_camera
    else if eq_str state "disable" then disable_camera
    else if eq_str state "use" then use_camera w true
    else print_value w "Unknown camera state: {}" state
  else
    has_index <- lift (py_in "index" payload) ;;
    if has_index then
      value <- lift (py_getitem payload "index") ;;
      name <- lift (py_capitalize w value) ;;
      index_face w name
    else print "Unknown command: {}" [Dumps payload].

(** *** The process *)

(** The attributes of [use_camera] when the module is loaded. *)
Definition module_attrs : attrs :=
  {| size := None; camera_enabled := None |}.

(** [main], up to its loop. *)
Definition main_setup : M unit :=
  print "Connecting to AWS IoT..." [] ;;
  emit (Connect CLIENT_ID AWS_IOT_ENDPOINT 443) ;;
  print "Publishing to AWS IoT..." [] ;;
  emit (Publish PUBLISH_TOPIC "myPayload" 0) ;;
  print "Subscribing to AWS IoT..." [] ;;
  emit (Subscribe SUBSCRIBE_TOPIC 1) ;;
  print "Ready to Go!" [] ;;
  set_camera_enabled false.

(** One turn of the loop of [main]. *)
Definition poll (w : world) : M unit :=
  emit (Sleep SLEEP_TIME) ;;
  enabled <- get_camera_enabled ;;
  if enabled then use_camera w false else ret tt.

(** What happens to the process after the set-up: a turn of the loop or
    the delivery of a message, each with the answers of the collaborators. *)
Inductive input :=
| Tick (w : world)
| Message (m : message) (w : world).

Definition step (i : input) : M unit :=
  match i with
  | Tick w => poll w
  | Message m w => message_received w m
  end.

(** The attributes at the start of the loop. *)
Definition start : attrs := final (main_setup module_attrs).

(** The attributes the process can be in: a step that raises keeps what
    it had written before. *)
Inductive reachable : attrs -> Prop :=
| reachable_start : reachable start
| reachable_step (s : attrs) (i : input) :
    reachable s -> reachable (final (step i s)).

(** Events of interest in a trace. *)
Definition is_capture (e : event) : bool :=
  match e with Capture => true | _ => false end.

Definition is_image_upload (e : event) : bool :=
  match e with PutObject _ _ ImageBuffer => true | _ => false end.

Definition is_put (e : event) : bool :=
  match e with PutObject _ _ _ => true | _ => false end.

(** The first call of the analysis pipeline. *)
Definition is_analysis (e : event) : bool :=
  match e with DetectLabels _ _ _ _ => true | _ => false end.

Definition is_face_call (e : event) : bool :=
  match e with
  | DetectFaces _ _ _ | RecognizeCelebrities _ _ | SearchFacesByImage _ _ _ => true
  | _ => false
  end.

Definition is_remote (e : event) : bool :=
  match e with
  | PutObject _ _ _ | DetectLabels _ _ _ _ | DetectFaces _ _ _
  | RecognizeCelebrities _ _ | SearchFacesByImage _ _ _ | IndexFaces _ _ _ _ _ => true
  | _ => false
  end.

(** ** Notions used by the statements *)

(** A buffer position, as [image.tell()] gives it: a [Py_ssize_t] that is
    not negative. *)
Definition is_size (z : Z) : Prop := 0 <= z < 2 ^ 63.

(** The change metric in the words of the specification:
    [|1 - currentSize/previousSize|] when [previousSize > 0], else [0];
    the quotient of the two sizes is rounded once, to the nearest float. *)
Definition ChangeMetric_ratio (previousSize currentSize : Z) : number :=
  if 0 <? previousSize then
    NFloat (SFabs (SFsub prec emax (float_of_int 1)
                     (SFdiv prec emax (int_mantissa currentSize)
                                      (int_mantissa previousSize))))
  else NInt 0.

(** A zero or a finite float with sign [s]. *)
Definition finite_signed (s : bool) (f : spec_float) : Prop :=
  match f with
  | S754_zero s' | S754_finite s' _ _ => s' = s
  | _ => False
  end.

(** [2 ^ e] as a rational. *)
Definition bpow (e : Z) : Q := Qpower 2 e.

(** The absolute value of a float, and its value, as rationals. *)
Definition magnitude (f : spec_float) : Q :=
  match f with
  | S754_finite _ m e => inject_Z (Z.pos m) * bpow e
  | _ => 0%Q
  end.

Definition float_value (f : spec_float) : Q :=
  match f with
  | S754_finite true _ _ => (- magnitude f)%Q
  | _ => magnitude f
  end.

Definition number_value (x : number) : Q :=
  match x with
  | NInt z => inject_Z z
  | NFloat f => float_value f
  end.

(** [|1 - currentSize/previousSize|] computed without rounding. *)
Definition exact_ratio (previousSize currentSize : Z) : Q :=
  Qabs (1 - inject_Z currentSize / inject_Z previousSize).

(** How far the two roundings of [use_camera] can move the ratio. *)
Definition rounding_margin (previousSize currentSize : Z) : Q :=
  (1 + inject_Z currentSize / inject_Z previousSize) * (1 # 2 ^ 50).

(** The image key of a cycle answered by [w]. *)
Definition image_key (w : world) : string := S3_IMAGE_KEY (strftime w).

Definition answered {A} (a : option A) : bool :=
  match a with Some _ => true | None => false end.

(** What [use_camera] does once its condition holds. *)
Definition shoot (w : world) : M unit :=
  key <- upload_image_and_get_key w ;; analyse_image w key.

(** ** Tactics to run the program *)

Ltac unfold_prog :=
  unfold use_camera, measure, analyse_image, upload_seen, upload_image_and_get_key,
    index_face, take_picture, enable_camera, disable_camera, poll,
    print_value, print, emit, remote, lift, get_size, set_size, get_camera_enabled,
    set_camera_enabled, bind, ret, outcome, final, events in *.

Ltac rewrite_answers :=
  simpl;
  repeat match goal with
         | H : ?a = Some _ |- context [?a] => rewrite H
         | H : ?a = None |- context [?a] => rewrite H
         end;
  simpl.

Ltac split_answers :=
  repeat match goal with
         | |- context [match ?x with Some _ => _ | None => _ end] =>
             destruct x eqn:?; simpl
         | |- context [if ?b then _ else _] => destruct b eqn:?; simpl
         end.

(** ** Sample collaborators *)

(** A world in which every call returns: a capture of [n] bytes, one
    label [name], one face, no celebrity and no known face.  Its stdout
    takes ASCII text only. *)
Definition sample_world (n : Z) (name : string) : world :=
  {| tell := n;
     strftime := "20240101120000";
     put_object := fun _ => Some (JDict []);
     detect_labels := fun _ => Some [ {| Name := name; label_fields := [] |} ];
     detect_faces := fun _ => Some [JDict []];
     recognize_celebrities := fun _ => Some [];
     search_faces_by_image := fun _ => Some [];
     index_faces := fun _ _ => Some (JDict []);
     stdout_encodes := fun _ => false;
     unicode_capitalize := fun s => s |}.

(** A world in which S3 is unreachable. *)
Definition offline_world (n : Z) : world :=
  {| tell := n;
     strftime := "20240101120000";
     put_object := fun _ => None;
     detect_labels := fun _ => None;
     detect_faces := fun _ => None;
     recognize_celebrities := fun _ => None;
     search_faces_by_image := fun _ => None;
     index_faces := fun _ _ => None;
     stdout_encodes := fun _ => false;
     unicode_capitalize := fun s => s |}.

Definition monitoring (n : Z) : attrs :=
  {| size := Some n; camera_enabled := Some true |}.

(** ** The record of an analysis *)

Definition image_ref (key : string) : json :=
  JDict [("Bucket", JStr S3_BUCKET); ("Key", JStr key)].

(** The record in the words of the specification: the image reference and
    the labels, then the faces when face detection ran, then the
    celebrities and the known-face matches when those two ran. *)
Definition AnalysisRecord (key : string) (labels : list Label)
    (faces : option (list json)) (more : option (list json * list json)) : dict :=
  [("Image", image_ref key); ("Labels", JList (map label_json labels))]
  ++ match faces with
     | Some f => [("FaceDetails", JList f)]
     | None => []
     end
  ++ match more with
     | Some (c, m) => [("CelebrityFaces", JList c); ("FaceMatches", JList m)]
     | None => []
     end.

(** The record that the answers of [w] add up to; [None] when the call of
    a stage that runs raises. *)
Definition accumulated (w : world) (key : string) : option dict :=
  match detect_labels w key with
  | None => None
  | Some labels =>
      if has_person labels then
        match detect_faces w key with
        | None => None
        | Some faces =>
            if 0 <? Z.of_nat (List.length faces) then
              match recognize_celebrities w key, search_faces_by_image w key with
              | Some c, Some m =>
                  Some (AnalysisRecord key labels (Some faces) (Some (c, m)))
              | _, _ => None
              end
            else Some (AnalysisRecord key labels (Some faces) None)
        end
      else Some (AnalysisRecord key labels None None)
  end.

(** Whether the remote call recorded as [e] returned, in [w]. *)
Definition call_returned (w : world) (e : event) : bool :=
  match e with
  | PutObject _ key _ => answered (put_object w key)
  | DetectLabels _ key _ _ => answered (detect_labels w key)
  | DetectFaces _ key _ => answered (detect_faces w key)
  | RecognizeCelebrities _ key => answered (recognize_celebrities w key)
  | SearchFacesByImage _ _ key => answered (search_faces_by_image w key)
  | IndexFaces _ _ key name _ => answered (index_faces w key name)
  | _ => true
  end.

(** The calls of the stages of the cascade that come before the write. *)
Definition is_stage_call (e : event) : bool :=
  match e with
  | DetectLabels _ _ _ _ | DetectFaces _ _ _
  | RecognizeCelebrities _ _ | SearchFacesByImage _ _ _ => true
  | _ => false
  end.

Definition failed_stage (w : world) (e : event) : bool :=
  is_stage_call e && negb (call_returned w e).

(** ** Computations that write no attribute *)

Definition preserves {A} (m : M A) : Prop := forall s, final (m s) = s.

(** ** Shapes of commands *)

(** An object that the router takes for none of its commands: its
    "camera" value is none of the three it knows, or it has neither a
    "camera" nor an "index" key. *)
Definition unrecognized (d : dict) : bool :=
  match dict_get d "camera" with
  | Some v => negb (eq_str v "enable" || eq_str v "disable" || eq_str v "use")
  | None => negb (dict_has d "index")
  end.



(** The identity labels under which a trace registers faces. *)
Definition registered (t : list event) : list string :=
  flat_map (fun e => match e with
                     | IndexFaces _ _ _ id _ => [id]
                     | _ => []
                     end) t.

Definition command (key value : string) : message :=
  {| payload := Parsed (JDict [(key, JStr value)]); topic := SUBSCRIBE_TOPIC |}.

(** The five lines that [message_received] prints before it parses. *)
Definition receipt (m : message) : list event :=
  [ Print "Received a new message: " [];
    Print "{}" [Bytes (payload m)];
    Print "from topic: " [];
    Print "{}" [Obj (JStr (topic m))];
    Print ("--------------" ++ newline ++ newline)%string [] ].

(** What [message_received] does with a payload that is an object. *)
Definition route (w : world) (d : dict) : M unit :=
  match dict_get d "camera" with
  | Some state =>
      if eq_str state "enable" then enable_camera
      else if eq_str state "disable" then disable_camera
      else if eq_str state "use" then use_camera w true
      else print_value w "Unknown camera state: {}" state
  | None =>
      match dict_get d "index" with
      | Some value => name <- lift (py_capitalize w value) ;; index_face w name
      | None => print "Unknown command: {}" [Dumps (JDict d)]
      end
  end.

(** The attributes as the loop needs them: [camera_enabled] is set, and
    [size] is set whenever monitoring is active. *)
Definition well_formed (s : attrs) : Prop :=
  (exists b, camera_enabled s = Some b)
  /\ (camera_enabled s = Some true -> exists n, size s = Some n).

(** ** Notions for the loop and for whole traces *)

(** Consecutive turns of the loop of [main]; an exception that leaves a
    turn leaves the loop. *)
Fixpoint polls (ws : list world) : M unit :=
  match ws with
  | [] => ret tt
  | w :: ws' => poll w ;; polls ws'
  end.

(** Captures whose sizes each stay at or under the threshold when
    compared with the one before, starting from the size [previous]. *)
Fixpoint calm (previous : Z) (ws : list world) : Prop :=
  match ws with
  | [] => True
  | w :: ws' =>
      is_size (tell w)
      /\ gt_float (ChangeMetric_ratio previous (tell w)) CHANGE_THRESHOLD = false
      /\ calm (tell w) ws'
  end.

(** The size of the last capture of [ws], or [previous] when there is none. *)
Fixpoint last_size (previous : Z) (ws : list world) : Z :=
  match ws with
  | [] => previous
  | w :: ws' => last_size (tell w) ws'
  end.

(** The last event of a trace. *)
Definition last_event (t : list event) : option event :=
  match rev t with
  | e :: _ => Some e
  | [] => None
  end.

(** Whether every Rekognition call of the trace [t] names an image that
    an earlier [put_object] of [t], or of [uploaded], stored and that
    returned in [w]. *)
Fixpoint uploads_first (w : world) (uploaded : list string) (t : list event) : bool :=
  match t with
  | [] => true
  | e :: t' =>
      match e with
      | PutObject _ key ImageBuffer =>
          uploads_first w (if answered (put_object w key) then key :: uploaded
                           else uploaded) t'
      | DetectLabels _ key _ _ | DetectFaces _ key _
      | RecognizeCelebrities _ key | SearchFacesByImage _ _ key
      | IndexFaces _ _ key _ _ =>
          existsb (String.eqb key) uploaded && uploads_first w uploaded t'
      | _ => uploads_first w uploaded t'
      end
  end.

(** The inputs whose captures have the size of a buffer position. *)
Definition sized (i : input) : Prop :=
  match i with
  | Tick w | Message _ w => is_size (tell w)
  end.

(** The attributes the process can be in when every capture is [sized]. *)
Inductive reachable_sized : attrs -> Prop :=
| reachable_sized_start : reachable_sized start
| reachable_sized_step (s : attrs) (i : input) :
    reachable_sized s -> sized i -> reachable_sized (final (step i s)).

(** The collaborators that answer during a step. *)
Definition answers (i : input) : world :=
  match i with
  | Tick w | Message _ w => w
  end.

(** Whether a [put_object] stores the image buffer under the image key of
    the step, or a JSON text under [S3_SEEN_KEY], in [S3_BUCKET]. *)
Definition put_under_its_key (w : world) (e : event) : bool :=
  match e with
  | PutObject bucket key ImageBuffer =>
      String.eqb bucket S3_BUCKET && String.eqb key (image_key w)
  | PutObject bucket key (JsonText _) =>
      String.eqb bucket S3_BUCKET && String.eqb key S3_SEEN_KEY
  | _ => true
  end.

(** * Properties *)

(** ** Rounding to binary64, and how far it moves a value *)

Section Rounding.

Lemma shr_1_half (r : shr_record) :
  0 <= shr_m r -> shr_m (shr_1 r) = shr_m r / 2.
Proof.
  destruct r as [m r s]; simpl. intros H.
  destruct m as [| [p | p |] | p]; try lia; simpl; try reflexivity.
  - apply Z.div_unique with 1; lia.
  - apply Z.div_unique with 0; lia.
Qed.

Lemma iter_shr_1 (p : positive) (r : shr_record) :
  0 <= shr_m r -> shr_m (SpecFloat.iter_pos shr_1 p r) = shr_m r / 2 ^ Z.pos p.
Proof.
  revert r. induction p as [p IH | p IH |]; intros r H; simpl SpecFloat.iter_pos.
  - assert (H1 : 0 <= shr_m (shr_1 r)) by (rewrite shr_1_half by lia; apply Z.div_pos; lia).
    assert (H2 : 0 <= shr_m (SpecFloat.iter_pos shr_1 p (shr_1 r)))
      by (rewrite IH by lia; apply Z.div_pos; lia).
    rewrite IH, IH, shr_1_half by lia.
    rewrite !Z.div_div by lia. f_equal.
    replace (Z.pos p~1) with (1 + Z.pos p + Z.pos p) by lia.
    rewrite !Z.pow_add_r by lia. lia.
  - assert (H2 : 0 <= shr_m (SpecFloat.iter_pos shr_1 p r))
      by (rewrite IH by lia; apply Z.div_pos; lia).
    rewrite IH, IH by lia.
    rewrite !Z.div_div by lia. f_equal.
    replace (Z.pos p~0) with (Z.pos p + Z.pos p) by lia.
    rewrite !Z.pow_add_r by lia. lia.
  - rewrite shr_1_half by lia. reflexivity.
Qed.

Lemma shr_spec (r : shr_record) (e n : Z) :
  0 <= shr_m r -> 0 <= n ->
  shr_m (fst (shr r e n)) = shr_m r / 2 ^ n /\ snd (shr r e n) = e + n.
Proof.
  intros H Hn. destruct n as [| p | p]; simpl; try lia.
  - rewrite Z.div_1_r. lia.
  - split; [apply iter_shr_1; lia | reflexivity].
Qed.

Lemma shr_record_of_loc_m (m : Z) (l : location) : shr_m (shr_record_of_loc m l) = m.
Proof. destruct l as [| []]; reflexivity. Qed.

Lemma Zdigits2_spec (m : Z) :
  0 < m -> 2 ^ (Zdigits2 m - 1) <= m < 2 ^ Zdigits2 m.
Proof.
  intros H. destruct m as [| p | p]; try lia.
  change (Zdigits2 (Z.pos p)) with (Z.pos (digits2_pos p)).
  assert (E : digits2_pos p = Pos.size p) by (clear; induction p; simpl; congruence).
  rewrite E.
  pose proof (Pos.size_gt p) as G. pose proof (Pos.size_le p) as L.
  apply Pos2Z.pos_lt_pos in G. apply Pos2Z.pos_le_pos in L.
  rewrite Pos2Z.inj_pow in G, L.
  split; [| exact G].
  replace (Z.pos (Pos.size p)) with (Z.succ (Z.pos (Pos.size p) - 1)) in L by lia.
  rewrite Z.pow_succ_r in L by lia. lia.
Qed.

Lemma Zdigits2_unique (m k : Z) :
  2 ^ (k - 1) <= m < 2 ^ k -> 0 < m -> Zdigits2 m = k.
Proof.
  intros [L U] H. pose proof (Zdigits2_spec m H) as [L' U'].
  assert (0 < Zdigits2 m) by (destruct m; simpl; lia).
  assert (0 < k).
  { destruct (Z.ltb_spec 0 k); [assumption |].
    destruct (Z.eq_dec k 0) as [-> | N]; [simpl in U; lia |].
    rewrite (Z.pow_neg_r 2 k) in U by lia. lia. }
  destruct (Z.lt_trichotomy (Zdigits2 m) k) as [C | [C | C]]; [| exact C |].
  - assert (2 ^ Zdigits2 m <= 2 ^ (k - 1)) by (apply Z.pow_le_mono_r; lia). lia.
  - assert (2 ^ k <= 2 ^ (Zdigits2 m - 1)) by (apply Z.pow_le_mono_r; lia). lia.
Qed.

Lemma fexp_normal (x : Z) : -1074 <= x - 53 -> fexp prec emax x = x - 53.
Proof. unfold fexp, emin, prec, emax. lia. Qed.

Lemma shr_fexp_normal (m e : Z) (l : location) :
  0 < m -> 53 <= Zdigits2 m -> -1074 <= e + (Zdigits2 m - 53) ->
  shr_m (fst (shr_fexp prec emax m e l)) = m / 2 ^ (Zdigits2 m - 53)
  /\ snd (shr_fexp prec emax m e l) = e + (Zdigits2 m - 53).
Proof.
  intros Hm Hd He. unfold shr_fexp.
  rewrite fexp_normal by lia.
  replace (Zdigits2 m + e - 53 - e) with (Zdigits2 m - 53) by lia.
  pose proof (shr_spec (shr_record_of_loc m l) e (Zdigits2 m - 53)) as S.
  rewrite shr_record_of_loc_m in S. apply S; lia.
Qed.

Lemma round_nearest_even_cases (m : Z) (l : location) :
  round_nearest_even m l = m \/ round_nearest_even m l = m + 1.
Proof.
  destruct l as [| []]; simpl; auto. destruct (Z.even m); auto.
Qed.

Lemma binary_round_aux_normal (sx : bool) (mx ex : Z) (lx : location) :
  0 < mx -> 53 <= Zdigits2 mx ->
  -1074 <= ex + (Zdigits2 mx - 53) -> ex + Zdigits2 mx <= 1023 ->
  let m1 := mx / 2 ^ (Zdigits2 mx - 53) in
  let e1 := ex + (Zdigits2 mx - 53) in
  2 ^ 52 <= m1 < 2 ^ 53
  /\ exists m' e',
       binary_round_aux prec emax sx mx ex lx = S754_finite sx m' e'
       /\ 2 ^ 52 <= Z.pos m' < 2 ^ 53
       /\ ((e' = e1 /\ (Z.pos m' = m1 \/ Z.pos m' = m1 + 1))
           \/ (e' = e1 + 1 /\ m1 + 1 = 2 ^ 53 /\ Z.pos m' = 2 ^ 52)).
Proof.
  intros Hm Hd He Hmax m1 e1.
  pose proof (Zdigits2_spec mx Hm) as [DL DU].
  set (d := Zdigits2 mx) in *.
  assert (P : 2 ^ (d - 1) = 2 ^ 52 * 2 ^ (d - 53)).
  { rewrite <- Z.pow_add_r by lia. f_equal. lia. }
  assert (P' : 2 ^ d = 2 ^ 53 * 2 ^ (d - 53)).
  { rewrite <- Z.pow_add_r by lia. f_equal. lia. }
  assert (Pp : 0 < 2 ^ (d - 53)) by (apply Z.pow_pos_nonneg; lia).
  assert (R1 : 2 ^ 52 <= m1 < 2 ^ 53).
  { subst m1. split.
    - apply Z.div_le_lower_bound; lia.
    - apply Z.div_lt_upper_bound; lia. }
  split; [exact R1 |].
  unfold binary_round_aux.
  destruct (shr_fexp_normal mx ex lx Hm Hd He) as [S1 S2].
  destruct (shr_fexp prec emax mx ex lx) as [mrs' e']. simpl in S1, S2.
  fold d in S1, S2. fold m1 in S1. fold e1 in S2. subst e'.
  rewrite S1.
  set (m2 := round_nearest_even m1 (loc_of_shr_record mrs')).
  destruct (round_nearest_even_cases m1 (loc_of_shr_record mrs')) as [C | C];
    fold m2 in C.
  - (* no carry *)
    assert (D2 : Zdigits2 m2 = 53) by (apply Zdigits2_unique; simpl; lia).
    destruct (shr_fexp_normal m2 e1 loc_Exact) as [T1 T2]; try lia.
    destruct (shr_fexp prec emax m2 e1 loc_Exact) as [mrs'' e'']. simpl in T1, T2.
    rewrite D2 in T1, T2. simpl in T1. rewrite Z.div_1_r in T1.
    rewrite T1. destruct m2 as [| p | p]; try lia.
    replace (e'' <=? emax - prec) with true
      by (symmetry; apply Z.leb_le; unfold emax, prec; lia).
    exists p, e''. split; [reflexivity |]. split; [lia |].
    left. split; [lia | left; lia].
  - destruct (Z.eq_dec (m1 + 1) (2 ^ 53)) as [Q | Q].
    + (* carry to the next binade *)
      assert (D2 : Zdigits2 m2 = 54) by (apply Zdigits2_unique; simpl; lia).
      destruct (shr_fexp_normal m2 e1 loc_Exact) as [T1 T2]; try lia.
      destruct (shr_fexp prec emax m2 e1 loc_Exact) as [mrs'' e'']. simpl in T1, T2.
      rewrite D2 in T1, T2. rewrite C, Q in T1.
      change (2 ^ 53 / 2 ^ (54 - 53)) with (2 ^ 52) in T1.
      rewrite T1. change (2 ^ 52) with (Z.pos 4503599627370496).
      cbv iota.
      replace (e'' <=? emax - prec) with true
        by (symmetry; apply Z.leb_le; unfold emax, prec; lia).
      exists 4503599627370496%positive, e''. split; [reflexivity |].
      split; [split; [reflexivity | reflexivity] |].
      right. split; [lia | split; [exact Q | reflexivity]].
    + assert (D2 : Zdigits2 m2 = 53) by (apply Zdigits2_unique; simpl; lia).
      destruct (shr_fexp_normal m2 e1 loc_Exact) as [T1 T2]; try lia.
      destruct (shr_fexp prec emax m2 e1 loc_Exact) as [mrs'' e'']. simpl in T1, T2.
      rewrite D2 in T1, T2. simpl in T1. rewrite Z.div_1_r in T1.
      rewrite T1. destruct m2 as [| p | p]; try lia.
      replace (e'' <=? emax - prec) with true
        by (symmetry; apply Z.leb_le; unfold emax, prec; lia).
      exists p, e''. split; [reflexivity |]. split; [lia |].
      left. split; [lia | right; lia].
Qed.

Lemma bpow_add (a b : Z) : (bpow (a + b) == bpow a * bpow b)%Q.
Proof. unfold bpow. apply Qpower_plus. discriminate. Qed.

Lemma bpow_pos (e : Z) : (0 < bpow e)%Q.
Proof. unfold bpow. apply Qpower_0_lt. reflexivity. Qed.

Lemma bpow_inject (n : Z) : 0 <= n -> (bpow n == inject_Z (2 ^ n))%Q.
Proof. intros H. unfold bpow. rewrite Zpower_Qpower by exact H. reflexivity. Qed.

Lemma inject_Z_le (a b : Z) : a <= b -> (inject_Z a <= inject_Z b)%Q.
Proof. intros H. rewrite <- Zle_Qle. exact H. Qed.

Lemma round_error (sx : bool) (mx ex : Z) (lx : location) (x : Q) :
  0 < mx -> 53 <= Zdigits2 mx ->
  -1074 <= ex + (Zdigits2 mx - 53) -> ex + Zdigits2 mx <= 1023 ->
  (inject_Z mx * bpow ex <= x <= inject_Z (mx + 1) * bpow ex)%Q ->
  let f := binary_round_aux prec emax sx mx ex lx in
  (exists m e, f = S754_finite sx m e
               /\ ex <= e <= ex + (Zdigits2 mx - 53) + 1
               /\ 2 ^ 52 <= Z.pos m < 2 ^ 53)
  /\ (Qabs (magnitude f - x) <= x * bpow (-52))%Q.
Proof.
  intros Hm Hd He Hmax [Hl Hu] f.
  destruct (binary_round_aux_normal sx mx ex lx Hm Hd He Hmax)
    as [R1 (m' & e' & E & Cm & C)].
  set (n := Zdigits2 mx - 53) in *.
  set (m1 := mx / 2 ^ n) in *. set (e1 := ex + n) in *.
  assert (Pn : 0 < 2 ^ n) by (apply Z.pow_pos_nonneg; lia).
  pose proof (Z.div_mod mx (2 ^ n) ltac:(lia)) as DM.
  pose proof (Z.mod_pos_bound mx (2 ^ n) Pn) as MB.
  fold m1 in DM.
  pose proof (bpow_pos e1) as T. set (t := bpow e1) in *.
  assert (Et : (t == inject_Z (2 ^ n) * bpow ex)%Q).
  { subst t e1. rewrite Z.add_comm, bpow_add, bpow_inject by lia. reflexivity. }
  pose proof (bpow_pos ex) as Tx.
  assert (L : (inject_Z m1 * t <= inject_Z mx * bpow ex)%Q).
  { rewrite Et, Qmult_assoc, <- inject_Z_mult.
    apply Qmult_le_compat_r; [apply inject_Z_le; nia | lra]. }
  assert (U : (inject_Z (mx + 1) * bpow ex <= (inject_Z m1 + 1) * t)%Q).
  { change 1%Q with (inject_Z 1). rewrite <- inject_Z_plus.
    rewrite Et, Qmult_assoc, <- inject_Z_mult.
    apply Qmult_le_compat_r; [apply inject_Z_le; nia | lra]. }
  assert (A52 : (inject_Z (2 ^ 52) <= inject_Z m1)%Q) by (apply inject_Z_le; lia).
  change (inject_Z (2 ^ 52)) with (4503599627370496 # 1)%Q in A52.
  assert (B52 : (bpow (-52) == 1 # 4503599627370496)%Q) by reflexivity.
  set (A := inject_Z m1) in *.
  assert (S : (0 <= ((1 # 4503599627370496) * A - 1) * t)%Q)
    by (apply Qmult_le_0_compat; lra).
  assert (V : (magnitude f == A * t \/ magnitude f == (A + 1) * t)%Q).
  { unfold f. rewrite E. simpl magnitude.
    destruct C as [[-> [-> | ->]] | (-> & Q & ->)].
    - left. reflexivity.
    - right. rewrite inject_Z_plus. reflexivity.
    - right. fold t.
      assert (bpow (e1 + 1) == t * 2)%Q as -> by (rewrite bpow_add; reflexivity).
      assert (A + 1 == inject_Z (2 ^ 53))%Q as ->
          by (rewrite <- Q, inject_Z_plus; reflexivity).
      change (inject_Z (2 ^ 53)) with (9007199254740992 # 1)%Q.
      change (inject_Z (2 ^ 52)) with (4503599627370496 # 1)%Q.
      ring. }
  split.
  - exists m', e'. split; [exact E |]. split; [| exact Cm].
    destruct C as [[-> _] | (-> & _)]; subst e1; lia.
  - rewrite B52. apply Qabs_Qle_condition.
    destruct V as [-> | ->]; split; lra.
Qed.

Lemma bpow_opp (s : Z) : 0 <= s -> (bpow (- s) == 1 # Z.to_pos (2 ^ s))%Q.
Proof.
  intros H. unfold bpow. rewrite Qpower_opp.
  assert (E : (Qpower 2 s == inject_Z (2 ^ s))%Q)
    by (symmetry; apply (Zpower_Qpower 2 s H)).
  rewrite E.
  assert (P : 0 < 2 ^ s) by (apply Z.pow_pos_nonneg; lia).
  destruct (2 ^ s) as [| k | k]; try lia. reflexivity.
Qed.

Lemma scaled_le_quotient (a s : Z) (c p : positive) :
  0 <= s -> a * Z.pos p <= Z.pos c * 2 ^ s ->
  (inject_Z a * bpow (- s) <= Z.pos c # p)%Q.
Proof.
  intros Hs H. rewrite bpow_opp by exact Hs.
  assert (P : 0 < 2 ^ s) by (apply Z.pow_pos_nonneg; lia).
  unfold Qle; simpl. rewrite Pos2Z.inj_mul, Z2Pos.id by exact P. lia.
Qed.

Lemma quotient_le_scaled (a s : Z) (c p : positive) :
  0 <= s -> Z.pos c * 2 ^ s <= a * Z.pos p ->
  (Z.pos c # p <= inject_Z a * bpow (- s))%Q.
Proof.
  intros Hs H. rewrite bpow_opp by exact Hs.
  assert (P : 0 < 2 ^ s) by (apply Z.pow_pos_nonneg; lia).
  unfold Qle; simpl. rewrite ?Pos2Z.inj_mul, Z2Pos.id by exact P. lia.
Qed.

Lemma Zdigits2_ge (m k : Z) : 0 <= k -> 2 ^ k <= m -> k + 1 <= Zdigits2 m.
Proof.
  intros Hk H. assert (Hm : 0 < m) by (pose proof (Z.pow_pos_nonneg 2 k); lia).
  pose proof (Zdigits2_spec m Hm) as [_ U].
  destruct (Z.le_gt_cases (k + 1) (Zdigits2 m)) as [G | G]; [exact G |].
  assert (2 ^ Zdigits2 m <= 2 ^ k) by (apply Z.pow_le_mono_r; lia). lia.
Qed.

Lemma Zdigits2_le (m k : Z) : 0 <= k -> 0 < m < 2 ^ k -> Zdigits2 m <= k.
Proof.
  intros Hk [Hm H]. pose proof (Zdigits2_spec m Hm) as [L _].
  destruct (Z.le_gt_cases (Zdigits2 m) k) as [G | G]; [exact G |].
  assert (2 ^ k <= 2 ^ (Zdigits2 m - 1)) by (apply Z.pow_le_mono_r; lia). lia.
Qed.

Lemma SFdiv_ints_error (c p : positive) :
  Z.pos c < 2 ^ 63 -> Z.pos p < 2 ^ 63 ->
  let f := SFdiv prec emax (S754_finite false c 0) (S754_finite false p 0) in
  (exists m e, f = S754_finite false m e
               /\ -116 <= e <= 127 /\ 2 ^ 52 <= Z.pos m < 2 ^ 53)
  /\ (Qabs (magnitude f - (Z.pos c # p)) <= (Z.pos c # p) * bpow (-52))%Q.
Proof.
  intros Hc Hp f. subst f. unfold SFdiv, SFdiv_core_binary.
  pose proof (Zdigits2_spec (Z.pos c) ltac:(lia)) as [L1 U1].
  pose proof (Zdigits2_spec (Z.pos p) ltac:(lia)) as [L2 U2].
  pose proof (Zdigits2_le (Z.pos c) 63 ltac:(lia) ltac:(lia)) as D1.
  pose proof (Zdigits2_le (Z.pos p) 63 ltac:(lia) ltac:(lia)) as D2.
  assert (D1' : 1 <= Zdigits2 (Z.pos c)) by (simpl; lia).
  assert (D2' : 1 <= Zdigits2 (Z.pos p)) by (simpl; lia).
  set (d1 := Zdigits2 (Z.pos c)) in *. set (d2 := Zdigits2 (Z.pos p)) in *.
  set (e' := Z.min (fexp prec emax (d1 + 0 - (d2 + 0))) (0 - 0)).
  assert (Ee : e' = Z.min (d1 - d2 - 53) 0).
  { unfold e'. rewrite fexp_normal by lia. lia. }
  set (s := - e').
  assert (Hs : 0 <= s <= 116) by lia.
  set (m' := match 0 - 0 - e' with
             | 0 => Z.pos c
             | Z.pos _ => Z.shiftl (Z.pos c) (0 - 0 - e')
             | Z.neg _ => 0
             end).
  assert (Em : m' = Z.pos c * 2 ^ s).
  { unfold m'. replace (0 - 0 - e') with s by lia.
    destruct s as [| k | k] eqn:Es; try lia.
    rewrite Z.shiftl_mul_pow2 by lia. reflexivity. }
  assert (Ps : 0 < 2 ^ s) by (apply Z.pow_pos_nonneg; lia).
  pose proof (Z.div_eucl_eq m' (Z.pos p) ltac:(lia)) as Q.
  pose proof (Z.mod_pos_bound m' (Z.pos p) ltac:(lia)) as R.
  unfold Z.modulo in R.
  destruct (Z.div_eucl m' (Z.pos p)) as [q r].
  assert (Hq : 2 ^ 52 <= q).
  { assert (2 ^ 52 * Z.pos p <= m'); [| nia].
    rewrite Em. destruct (Z.le_gt_cases (d1 - d2 - 53) 0) as [G | G].
    - assert (s = 53 + d2 - d1) as -> by lia.
      assert (2 ^ 52 * 2 ^ d2 = 2 ^ (d1 - 1) * 2 ^ (53 + d2 - d1)).
      { rewrite <- !Z.pow_add_r by lia. f_equal. lia. }
      nia.
    - assert (s = 0) as -> by lia. rewrite Z.mul_1_r.
      assert (2 ^ 52 * 2 ^ d2 <= 2 ^ (d1 - 1)).
      { rewrite <- Z.pow_add_r by lia. apply Z.pow_le_mono_r; lia. }
      nia. }
  assert (Uq : q < 2 ^ 179).
  { assert (2 ^ s <= 2 ^ 116) by (apply Z.pow_le_mono_r; lia).
    change (2 ^ 179) with (2 ^ 63 * 2 ^ 116). nia. }
  pose proof (Zdigits2_ge q 52 ltac:(lia) Hq) as Dq.
  pose proof (Zdigits2_le q 179 ltac:(lia) ltac:(lia)) as Dq'.
  assert (X : (inject_Z q * bpow e' <= Z.pos c # p <= inject_Z (q + 1) * bpow e')%Q).
  { replace e' with (- s) by lia. split.
    - apply scaled_le_quotient; nia.
    - apply quotient_le_scaled; nia. }
  destruct (round_error (xorb false false) q e' (new_location (Z.pos p) r)
              (Z.pos c # p) ltac:(lia) ltac:(lia) ltac:(lia) ltac:(lia) X)
    as [(m & e & E & Be & Bm) Err].
  split; [| exact Err].
  exists m, e. split; [exact E | split; [lia | exact Bm]].
Qed.

Lemma iter_xO (m d : positive) : Z.pos (Pos.iter xO m d) = Z.pos m * 2 ^ Z.pos d.
Proof.
  change (Pos.iter xO m d) with (shift_pos d m).
  rewrite shift_pos_correct, Zpower_pos_nat, Zpower_nat_Z, positive_nat_Z. lia.
Qed.

Lemma shl_align_spec (mx : positive) (ex ex' : Z) :
  ex' <= ex ->
  Z.pos (fst (shl_align mx ex ex')) = Z.pos mx * 2 ^ (ex - ex')
  /\ snd (shl_align mx ex ex') = ex'.
Proof.
  intros H. unfold shl_align.
  destruct (ex' - ex) as [| d | d] eqn:E; try lia; cbn [fst snd].
  - replace (ex - ex') with 0 by lia. rewrite Z.pow_0_r. lia.
  - rewrite iter_xO. replace (ex - ex') with (Z.pos d) by lia. lia.
Qed.

Lemma shl_align_id (mx : positive) (ex ex' : Z) :
  ex <= ex' -> shl_align mx ex ex' = (mx, ex).
Proof.
  intros H. unfold shl_align. destruct (ex' - ex) as [| d | d] eqn:E; try lia; reflexivity.
Qed.

Lemma binary_round_error (sx : bool) (mx : positive) (ex : Z) :
  -1074 <= Zdigits2 (Z.pos mx) + ex - 53 -> Zdigits2 (Z.pos mx) + ex <= 1023 ->
  let f := binary_round prec emax sx mx ex in
  let x := (inject_Z (Z.pos mx) * bpow ex)%Q in
  (exists m e, f = S754_finite sx m e /\ 2 ^ 52 <= Z.pos m < 2 ^ 53)
  /\ (Qabs (magnitude f - x) <= x * bpow (-52))%Q.
Proof.
  intros Hlo Hhi f x. subst f. unfold binary_round.
  change (Z.pos (digits2_pos mx)) with (Zdigits2 (Z.pos mx)).
  set (d := Zdigits2 (Z.pos mx)) in *.
  rewrite fexp_normal by lia.
  pose proof (Zdigits2_spec (Z.pos mx) ltac:(lia)) as [DL DU]. fold d in DL, DU.
  assert (Hd : 1 <= d) by (unfold d; simpl; lia).
  pose proof (bpow_pos ex) as Tx.
  destruct (Z.le_gt_cases 53 d) as [G | G].
  - rewrite shl_align_id by lia.
    assert (X : (inject_Z (Z.pos mx) * bpow ex <= x
                 <= inject_Z (Z.pos mx + 1) * bpow ex)%Q).
    { subst x. split; [lra |].
      apply Qmult_le_compat_r; [apply inject_Z_le; lia | lra]. }
    destruct (round_error sx (Z.pos mx) ex loc_Exact x ltac:(lia) G
                ltac:(fold d; lia) ltac:(fold d; lia) X) as [(m & e & E & _ & C) Err].
    split; [exists m, e; split; [exact E | exact C] | exact Err].
  - destruct (shl_align_spec mx ex (d + ex - 53) ltac:(lia)) as [A1 A2].
    destruct (shl_align mx ex (d + ex - 53)) as [mz ez]. cbn [fst snd] in A1, A2.
    subst ez.
    replace (ex - (d + ex - 53)) with (53 - d) in A1 by lia.
    assert (P : 2 ^ 53 = 2 ^ d * 2 ^ (53 - d)).
    { rewrite <- Z.pow_add_r by lia. f_equal. lia. }
    assert (P' : 2 ^ 52 = 2 ^ (d - 1) * 2 ^ (53 - d)).
    { rewrite <- Z.pow_add_r by lia. f_equal. lia. }
    assert (Pk : 0 < 2 ^ (53 - d)) by (apply Z.pow_pos_nonneg; lia).
    assert (Dz : Zdigits2 (Z.pos mz) = 53).
    { apply Zdigits2_unique; [| lia]. change (53 - 1) with 52. split.
      - rewrite A1, P'. apply Z.mul_le_mono_nonneg_r; lia.
      - rewrite A1, P. apply Z.mul_lt_mono_pos_r; lia. }
    assert (Ex : (x == inject_Z (Z.pos mz) * bpow (d + ex - 53))%Q).
    { subst x. rewrite A1, inject_Z_mult, <- bpow_inject by lia.
      rewrite <- Qmult_assoc, <- bpow_add. replace (53 - d + (d + ex - 53)) with ex by lia.
      reflexivity. }
    pose proof (bpow_pos (d + ex - 53)) as Tz.
    assert (X : (inject_Z (Z.pos mz) * bpow (d + ex - 53) <= x
                 <= inject_Z (Z.pos mz + 1) * bpow (d + ex - 53))%Q).
    { rewrite Ex. split; [lra |].
      apply Qmult_le_compat_r; [apply inject_Z_le; lia | lra]. }
    destruct (round_error sx (Z.pos mz) (d + ex - 53) loc_Exact x ltac:(lia)
                ltac:(lia) ltac:(lia) ltac:(lia) X) as [(m & e & E & _ & C) Err].
    split; [exists m, e; split; [exact E | exact C] | exact Err].
Qed.

Lemma one_minus_error (m : positive) (e : Z) :
  -116 <= e <= 127 -> Z.pos m <= 2 ^ 53 ->
  let q := S754_finite false m e in
  let f := SFsub prec emax (S754_finite false 4503599627370496 (-52)) q in
  (f = S754_zero false
   \/ exists s m' e', f = S754_finite s m' e' /\ 2 ^ 52 <= Z.pos m' < 2 ^ 53)
  /\ (Qabs (magnitude f - Qabs (1 - magnitude q))
      <= Qabs (1 - magnitude q) * bpow (-52))%Q.
Proof.
  intros He Hm q f. subst f q. unfold SFsub. cbn [cond_Zopp].
  set (ez := Z.min (-52) e).
  destruct (shl_align_spec 4503599627370496 (-52) ez ltac:(lia)) as [A _].
  destruct (shl_align_spec m e ez ltac:(lia)) as [B _].
  set (a := Z.pos (fst (shl_align 4503599627370496 (-52) ez))) in *.
  set (b := Z.pos (fst (shl_align m e ez))) in *.
  assert (Ya : (inject_Z a * bpow ez == 1)%Q).
  { rewrite A, inject_Z_mult, <- bpow_inject by lia.
    rewrite <- Qmult_assoc, <- bpow_add.
    replace (-52 - ez + ez) with (-52) by lia. reflexivity. }
  assert (Yb : (inject_Z b * bpow ez == inject_Z (Z.pos m) * bpow e)%Q).
  { rewrite B, inject_Z_mult, <- bpow_inject by lia.
    rewrite <- Qmult_assoc, <- bpow_add.
    replace (e - ez + ez) with e by lia. reflexivity. }
  assert (Y : (inject_Z (a - b) * bpow ez == 1 - magnitude (S754_finite false m e))%Q).
  { unfold Z.sub. rewrite inject_Z_plus, inject_Z_opp. cbn [magnitude].
    transitivity (inject_Z a * bpow ez - inject_Z b * bpow ez)%Q; [ring |].
    rewrite Ya, Yb. reflexivity. }
  assert (Ha : 0 < a <= 2 ^ 116).
  { split; [unfold a; lia |]. rewrite A.
    change (2 ^ 116) with (2 ^ 52 * 2 ^ 64).
    assert (2 ^ (-52 - ez) <= 2 ^ 64) by (apply Z.pow_le_mono_r; lia).
    change (Z.pos 4503599627370496) with (2 ^ 52). nia. }
  assert (Hb : 0 < b <= 2 ^ 296).
  { split; [unfold b; lia |]. rewrite B.
    change (2 ^ 296) with (2 ^ 53 * 2 ^ 243).
    assert (0 < 2 ^ (e - ez) <= 2 ^ 243)
      by (split; [apply Z.pow_pos_nonneg; lia | apply Z.pow_le_mono_r; lia]).
    nia. }
  set (Y0 := (1 - magnitude (S754_finite false m e))%Q) in *.
  pose proof (bpow_pos ez) as Tz.
  destruct (a - b) as [| k | k] eqn:Ez; cbn [binary_normalize].
  - split; [left; reflexivity |].
    assert (Y0 == 0)%Q as -> by (rewrite <- Y; ring).
    simpl. discriminate.
  - assert (Dk : Zdigits2 (Z.pos k) <= 297)
      by (apply Zdigits2_le; [lia |]; change (2 ^ 297) with (2 ^ 296 + 2 ^ 296); lia).
    assert (Dk' : 1 <= Zdigits2 (Z.pos k)) by (simpl; lia).
    destruct (binary_round_error false k ez ltac:(lia) ltac:(lia))
      as [(m' & e' & E & C) Err].
    rewrite E in *. split; [right; exists false, m', e'; auto |].
    rewrite Y in Err.
    assert (P : (0 <= Y0)%Q).
    { rewrite <- Y. apply Qmult_le_0_compat; [| lra].
      change 0%Q with (inject_Z 0). apply inject_Z_le. lia. }
    rewrite (Qabs_pos Y0 P). exact Err.
  - assert (Dk : Zdigits2 (Z.pos k) <= 297)
      by (apply Zdigits2_le; [lia |]; change (2 ^ 297) with (2 ^ 296 + 2 ^ 296); lia).
    assert (Dk' : 1 <= Zdigits2 (Z.pos k)) by (simpl; lia).
    destruct (binary_round_error true k ez ltac:(lia) ltac:(lia))
      as [(m' & e' & E & C) Err].
    rewrite E in *. split; [right; exists true, m', e'; auto |].
    assert (Yn : (inject_Z (Z.pos k) * bpow ez == - Y0)%Q).
    { rewrite <- Y. change (Z.neg k) with (- Z.pos k). rewrite inject_Z_opp. ring. }
    rewrite Yn in Err.
    assert (P : (Y0 <= 0)%Q).
    { rewrite <- Y. assert (0 <= inject_Z (Z.pos k) * bpow ez)%Q.
      { apply Qmult_le_0_compat; [| lra].
        change 0%Q with (inject_Z 0). apply inject_Z_le. lia. }
      rewrite Yn in H. rewrite Y. lra. }
    rewrite (Qabs_neg Y0 P). exact Err.
Qed.

Lemma float_value_abs (f : spec_float) : float_value (SFabs f) = magnitude f.
Proof. destruct f as [| | | s m e]; reflexivity. Qed.

Lemma Qabs_cases (a : Q) :
  ((0 <= a)%Q /\ (Qabs a == a)%Q) \/ ((a <= 0)%Q /\ (Qabs a == - a)%Q).
Proof.
  destruct (Qlt_le_dec a 0) as [H | H].
  - right. split; [lra | apply Qabs_neg; lra].
  - left. split; [exact H | apply Qabs_pos; exact H].
Qed.

Lemma ratio_error (c p : positive) :
  Z.pos c < 2 ^ 63 -> Z.pos p < 2 ^ 63 ->
  let q := SFdiv prec emax (S754_finite false c 0) (S754_finite false p 0) in
  let r := SFabs (SFsub prec emax (S754_finite false 4503599627370496 (-52)) q) in
  let x := (Z.pos c # p)%Q in
  (Qabs (float_value r - Qabs (1 - x)) <= (1 + x) * (1 # 2 ^ 50))%Q.
Proof.
  intros Hc Hp q r x.
  destruct (SFdiv_ints_error c p Hc Hp) as [(m & e & E & Be & Bm) Eq]. fold q in E, Eq.
  subst r. rewrite float_value_abs. rewrite E in *.
  destruct (one_minus_error m e Be ltac:(lia)) as [_ Er]. cbv zeta in Er.
  fold x in Eq.
  set (V := magnitude (S754_finite false m e)) in *.
  set (R := magnitude (SFsub prec emax (S754_finite false 4503599627370496 (-52))
                         (S754_finite false m e))) in *.
  assert (B52 : (bpow (-52) == 1 # 4503599627370496)%Q) by reflexivity.
  rewrite B52 in Eq, Er.
  assert (X0 : (0 < x)%Q) by reflexivity.
  change (1 # 2 ^ 50)%Q with (1 # 1125899906842624)%Q.
  destruct (Qabs_cases (1 - V)) as [[S1 A1] | [S1 A1]];
    destruct (Qabs_cases (1 - x)) as [[S2 A2] | [S2 A2]];
    rewrite A1 in Er; rewrite A2;
    apply Qabs_Qle_condition in Eq; apply Qabs_Qle_condition in Er;
    apply Qabs_Qle_condition;
    destruct Eq as [Eq1 Eq2]; destruct Er as [Er1 Er2]; split; lra.
Qed.

Lemma bpow_le (a b : Z) : a <= b -> (bpow a <= bpow b)%Q.
Proof. intros H. unfold bpow. apply Qpower_le_compat_l; [exact H | discriminate]. Qed.

Lemma inject_Z_lt (a b : Z) : a < b -> (inject_Z a < inject_Z b)%Q.
Proof. intros H. rewrite <- Zlt_Qlt. exact H. Qed.

(** On floats with full mantissas the comparison of [SFltb] is the
    comparison of the values. *)
Lemma SFltb_canonical (m1 m2 : positive) (e1 e2 : Z) :
  2 ^ 52 <= Z.pos m1 < 2 ^ 53 -> 2 ^ 52 <= Z.pos m2 < 2 ^ 53 ->
  SFltb (S754_finite false m1 e1) (S754_finite false m2 e2) = true
  <-> (magnitude (S754_finite false m1 e1) < magnitude (S754_finite false m2 e2))%Q.
Proof.
  intros C1 C2. unfold SFltb, SFcompare. cbn [magnitude].
  pose proof (bpow_pos e1) as T1. pose proof (bpow_pos e2) as T2.
  assert (I1 : (4503599627370496 <= inject_Z (Z.pos m1) < 9007199254740992)%Q).
  { split; [apply (inject_Z_le (2 ^ 52)); lia | apply (inject_Z_lt _ (2 ^ 53)); lia]. }
  assert (I2 : (4503599627370496 <= inject_Z (Z.pos m2) < 9007199254740992)%Q).
  { split; [apply (inject_Z_le (2 ^ 52)); lia | apply (inject_Z_lt _ (2 ^ 53)); lia]. }
  set (a1 := inject_Z (Z.pos m1)) in *. set (a2 := inject_Z (Z.pos m2)) in *.
  destruct (Z.compare_spec e1 e2) as [<- | L | G].
  - change (Pos.compare_cont Eq m1 m2) with (Pos.compare m1 m2).
    destruct (Pos.compare_spec m1 m2) as [-> | L | G].
    + split; [discriminate | intros H; subst a1 a2; lra].
    + split; [intros _ | reflexivity].
      apply Qmult_lt_compat_r; [exact T1 | apply inject_Z_lt; lia].
    + split; [discriminate | intros H].
      assert (a2 < a1)%Q by (apply inject_Z_lt; lia).
      assert (a2 * bpow e1 < a1 * bpow e1)%Q by (apply Qmult_lt_compat_r; assumption).
      lra.
  - split; [intros _ | reflexivity].
    pose proof (bpow_le (e1 + 1) e2 ltac:(lia)) as B.
    rewrite bpow_add in B. change (bpow 1) with 2%Q in B.
    assert (0 <= (9007199254740992 - a1) * bpow e1)%Q
      by (apply Qmult_le_0_compat; lra).
    assert (0 <= (a2 - 4503599627370496) * bpow e2)%Q
      by (apply Qmult_le_0_compat; lra).
    assert (0 < (9007199254740992 - a1) * bpow e1)%Q
      by (apply Qmult_lt_0_compat; lra).
    lra.
  - split; [discriminate | intros H].
    pose proof (bpow_le (e2 + 1) e1 ltac:(lia)) as B.
    rewrite bpow_add in B. change (bpow 1) with 2%Q in B.
    assert (0 < (9007199254740992 - a2) * bpow e2)%Q
      by (apply Qmult_lt_0_compat; lra).
    assert (0 <= (a1 - 4503599627370496) * bpow e1)%Q
      by (apply Qmult_le_0_compat; lra).
    lra.
Qed.

End Rounding.

(** ** The change detector *)

Lemma int_true_divide_sizes (a b : Z) :
  is_size a -> is_size b -> 0 < b ->
  int_true_divide a b = Ok (SFdiv prec emax (int_mantissa a) (int_mantissa b))
  /\ finite_signed false (SFdiv prec emax (int_mantissa a) (int_mantissa b)).
Proof.
  unfold is_size, int_true_divide. intros Ha Hb Hpos.
  destruct (Z.eqb_spec b 0) as [-> | _]; [lia |].
  destruct b as [| pb | pb]; try lia.
  destruct a as [| pa | pa]; try lia.
  - split; reflexivity.
  - destruct (SFdiv_ints_error pa pb ltac:(lia) ltac:(lia)) as [(m & e & E & _) _].
    cbn [int_mantissa]. rewrite E. split; reflexivity.
Qed.

(** On ints that a float holds exactly, [a / b] is the division of the
    two floats. *)
Example int_true_divide_is_float_division :
  let pairs := [(1, 3); (995, 1000); (1003, 1000); (1200, 1000); (7, 1000000);
                (123456789, 987654321); (2 ^ 53 - 1, 3); (5, 2 ^ 53 - 1)] in
  map (fun ab => int_true_divide (fst ab) (snd ab)) pairs
  = map (fun ab => Ok (SFdiv prec emax (float_of_int (fst ab)) (float_of_int (snd ab))))
        pairs.
Proof. vm_compute. reflexivity. Qed.

Lemma size_change_of_sizes (previous_size current_size : Z) :
  is_size previous_size -> is_size current_size ->
  size_change_of previous_size current_size
  = Ok (ChangeMetric_ratio previous_size current_size).
Proof.
  intros Hp Hc. unfold size_change_of, ChangeMetric_ratio.
  rewrite Z.gtb_ltb.
  destruct (Z.ltb_spec 0 previous_size) as [Hpos | _]; [| reflexivity].
  destruct (int_true_divide_sizes current_size previous_size Hc Hp Hpos) as [-> _].
  reflexivity.
Qed.

(** The float that [abs(1 - current/previous)] evaluates to is zero or has
    a full mantissa, and it is within the rounding margin of the exact
    ratio. *)
Lemma ratio_float (previousSize currentSize : Z) :
  is_size previousSize -> is_size currentSize -> 0 < previousSize ->
  exists r,
    ChangeMetric_ratio previousSize currentSize = NFloat r
    /\ (r = S754_zero false
        \/ exists m e, r = S754_finite false m e /\ 2 ^ 52 <= Z.pos m < 2 ^ 53)
    /\ (Qabs (float_value r - exact_ratio previousSize currentSize)
        <= rounding_margin previousSize currentSize)%Q.
Proof.
  unfold is_size, ChangeMetric_ratio, exact_ratio, rounding_margin.
  intros Hp Hc Hpos.
  destruct (Z.ltb_spec 0 previousSize) as [_ | N]; [| lia].
  destruct previousSize as [| p | p]; try lia.
  assert (E1 : float_of_int 1 = S754_finite false 4503599627370496 (-52))
    by (vm_compute; reflexivity).
  rewrite E1. eexists; split; [reflexivity |].
  destruct currentSize as [| c | c]; try lia.
  - cbn [int_mantissa SFdiv SFsub SFabs xorb]. split.
    + right. exists 4503599627370496%positive, (-52). split; [reflexivity |].
      split; reflexivity.
    + assert (V : (float_value (S754_finite false 4503599627370496 (-52)) == 1)%Q)
        by reflexivity.
      rewrite V. unfold Qdiv. rewrite Qmult_0_l.
      apply Qabs_Qle_condition. split; vm_compute; discriminate.
  - cbn [int_mantissa].
    pose proof (ratio_error c p ltac:(lia) ltac:(lia)) as Err. cbv zeta in Err.
    rewrite <- !Qmake_Qdiv. split; [| exact Err].
    destruct (SFdiv_ints_error c p ltac:(lia) ltac:(lia)) as [(m & e & E & Be & Bm) _].
    rewrite E.
    destruct (one_minus_error m e Be ltac:(lia)) as [[Z0 | (s & m' & e' & F & C)] _];
      cbv zeta in *.
    + left. rewrite Z0. reflexivity.
    + right. rewrite F. exists m', e'. split; [reflexivity | exact C].
Qed.

Lemma ChangeMetric_ratio_nonneg (previousSize currentSize : Z) :
  is_size previousSize -> is_size currentSize ->
  nonneg (ChangeMetric_ratio previousSize currentSize) = true.
Proof.
  intros Hp Hc.
  destruct (Z.ltb_spec 0 previousSize) as [Hpos | N].
  - destruct (ratio_float _ _ Hp Hc Hpos) as (r & -> & [-> | (m & e & -> & _)] & _);
      reflexivity.
  - unfold ChangeMetric_ratio. destruct (Z.ltb_spec 0 previousSize); [lia | reflexivity].
Qed.

(** The value of the threshold lies just above 1/200. *)
Lemma CHANGE_THRESHOLD_value :
  (1 # 200 < float_value CHANGE_THRESHOLD < (1 # 200) + (1 # 2 ^ 60))%Q
  /\ 2 ^ 52 <= 5764607523034235 < 2 ^ 53.
Proof.
  split; [split; reflexivity | split; [vm_compute; discriminate | reflexivity]].
Qed.

(** The comparison made on floats decides the comparison of the exact
    ratio with 0.005 whenever the exact ratio is farther from 0.005 than
    the rounding margin. *)
Lemma trigger_decides_exact_ratio (previousSize currentSize : Z) :
  is_size previousSize -> is_size currentSize -> 0 < previousSize ->
  let decision := gt_float (ChangeMetric_ratio previousSize currentSize)
                    CHANGE_THRESHOLD in
  let margin := rounding_margin previousSize currentSize in
  (((1 # 200) + 2 * margin <= exact_ratio previousSize currentSize)%Q ->
     decision = true)
  /\ ((exact_ratio previousSize currentSize <= (1 # 200) - margin)%Q ->
      decision = false).
Proof.
  intros Hp Hc Hpos decision margin.
  destruct (ratio_float _ _ Hp Hc Hpos) as (r & E & K & Err).
  subst decision. rewrite E. cbn [gt_float]. fold margin in Err.
  destruct CHANGE_THRESHOLD_value as [[T1 T2] TC].
  assert (M : (1 # 2 ^ 50 <= margin)%Q).
  { unfold margin, rounding_margin.
    assert (0 <= inject_Z currentSize / inject_Z previousSize)%Q.
    { unfold is_size in *. apply Qle_shift_div_l.
      - change 0%Q with (inject_Z 0). rewrite <- Zlt_Qlt. lia.
      - rewrite Qmult_0_l. change 0%Q with (inject_Z 0). rewrite <- Zle_Qle. lia. }
    assert (0 <= inject_Z currentSize / inject_Z previousSize * (1 # 2 ^ 50))%Q
      by (apply Qmult_le_0_compat; [assumption | discriminate]).
    lra. }
  assert (S60 : ((1 # 2 ^ 60) < (1 # 2 ^ 50))%Q) by reflexivity.
  apply Qabs_Qle_condition in Err. destruct Err as [Er1 Er2].
  destruct K as [-> | (m & e & -> & C)].
  - assert (V : (float_value (S754_zero false) == 0)%Q) by reflexivity.
    rewrite V in Er1, Er2. split; [intros H; lra | reflexivity].
  - assert (V : float_value (S754_finite false m e)
                = magnitude (S754_finite false m e)) by reflexivity.
    rewrite V in Er1, Er2.
    assert (VT : float_value CHANGE_THRESHOLD = magnitude CHANGE_THRESHOLD)
      by reflexivity.
    rewrite VT in T1, T2.
    pose proof (SFltb_canonical 5764607523034235 m (-60) e TC C) as L.
    fold CHANGE_THRESHOLD in L. split; intros H.
    + apply L. lra.
    + destruct (SFltb CHANGE_THRESHOLD (S754_finite false m e)); [| reflexivity].
      assert (magnitude CHANGE_THRESHOLD < magnitude (S754_finite false m e))%Q
        by (apply L; reflexivity).
      lra.
Qed.

(** C2.  The change metric depends on the two sizes only.  For every
    previous size above zero and every current size the value that
    [use_camera] assigns to [size_change] is [abs(1 - current/previous)]
    computed in binary64, which is within the rounding margin
    [(1 + current/previous) / 2^50] of the exact [|1 - current/previous|];
    for a previous size of zero it is [0].  In both cases the value is at
    least zero and no exception is raised, so no division by zero
    happens. *)
Theorem change_metric_is_ratio (previousSize currentSize : Z) :
  is_size previousSize -> is_size currentSize ->
  size_change_of previousSize currentSize
    = Ok (ChangeMetric_ratio previousSize currentSize)
  /\ (0 < previousSize ->
      (exists q, int_true_divide currentSize previousSize = Ok q
                 /\ ChangeMetric_ratio previousSize currentSize
                    = NFloat (float_abs (one_minus q)))
      /\ (Qabs (number_value (ChangeMetric_ratio previousSize currentSize)
                - exact_ratio previousSize currentSize)
          <= rounding_margin previousSize currentSize)%Q)
  /\ (previousSize = 0 -> ChangeMetric_ratio previousSize currentSize = NInt 0)
  /\ nonneg (ChangeMetric_ratio previousSize currentSize) = true
  /\ (forall (w : world) (s : attrs),
        size s = Some previousSize -> tell w = currentSize ->
        outcome (measure w false s)
        = Ok (Some (ChangeMetric_ratio previousSize currentSize))).
Proof.
  intros Hp Hc.
  pose proof (size_change_of_sizes _ _ Hp Hc) as E.
  split; [exact E | split; [| split; [| split]]].
  - intros Hpos. split.
    + destruct (int_true_divide_sizes currentSize previousSize Hc Hp Hpos) as [D _].
      eexists; split; [exact D |].
      unfold ChangeMetric_ratio.
      destruct (Z.ltb_spec 0 previousSize); [reflexivity | lia].
    + destruct (ratio_float _ _ Hp Hc Hpos) as (r & -> & _ & Err). exact Err.
  - intros ->. reflexivity.
  - apply ChangeMetric_ratio_nonneg; assumption.
  - intros w s Hs Ht.
    unfold measure, bind, get_size, set_size, lift, print, emit, ret, outcome.
    simpl. rewrite Hs. simpl. rewrite Ht, E. reflexivity.
Qed.

Lemma change_metric_is_ratio_witness :
  is_size 1000 /\ is_size 1200
  /\ size_change_of 1000 1200 = Ok (ChangeMetric_ratio 1000 1200)
  /\ nonneg (ChangeMetric_ratio 1000 1200) = true.
Proof.
  assert (H1 : is_size 1000) by (unfold is_size; lia).
  assert (H2 : is_size 1200) by (unfold is_size; lia).
  destruct (change_metric_is_ratio 1000 1200 H1 H2) as (A & _ & _ & B & _).
  repeat split; assumption || (apply H1) || (apply H2).
Defined.

(** ** One capture cycle *)

Lemma use_camera_once (w : world) (s : attrs) :
  use_camera w true s
  = (outcome (shoot w s), final (shoot w s), Capture :: events (shoot w s)).
Proof.
  unfold use_camera, measure, trigger, take_picture. fold (shoot w).
  unfold bind, emit, ret, lift, outcome, final, events. simpl.
  destruct (shoot w s) as [[r s'] t]. reflexivity.
Qed.

Lemma use_camera_periodic (w : world) (s : attrs) (previous_size : Z) (x : number) :
  size s = Some previous_size ->
  size_change_of previous_size (tell w) = Ok x ->
  let s' := {| size := Some (tell w); camera_enabled := camera_enabled s |} in
  let log := Print "size: {0} - previous: {1} - change: {2}"
               [Obj (JInt (tell w)); Obj (JInt previous_size); Num x] in
  use_camera w false s
  = if gt_float x CHANGE_THRESHOLD
    then (outcome (shoot w s'), final (shoot w s'),
          Capture :: log :: events (shoot w s'))
    else (Ok tt, s', [Capture; log]).
Proof.
  intros Hs Hx. unfold use_camera, measure, trigger, take_picture. fold (shoot w).
  unfold bind, emit, ret, lift, print, get_size, set_size, outcome, final, events.
  simpl. rewrite Hs. simpl. rewrite Hx. simpl.
  destruct (gt_float x CHANGE_THRESHOLD); [| reflexivity].
  destruct (shoot w _) as [[r s'] t]. reflexivity.
Qed.

Lemma shoot_events (w : world) (s : attrs) :
  In (PutObject S3_BUCKET (image_key w) ImageBuffer) (events (shoot w s))
  /\ existsb is_image_upload (events (shoot w s)) = true
  /\ existsb is_analysis (events (shoot w s)) = answered (put_object w (image_key w)).
Proof.
  unfold shoot, image_key. unfold_prog. simpl.
  destruct (put_object w (S3_IMAGE_KEY (strftime w))); simpl.
  - split_answers; auto 10.
  - auto 10.
Qed.

Lemma shoot_preserves (w : world) (s : attrs) : final (shoot w s) = s.
Proof.
  unfold shoot. unfold_prog. simpl. split_answers; reflexivity.
Qed.

(** C1.  In a periodic cycle the image is uploaded exactly when the
    change ratio that the cycle computed is above [CHANGE_THRESHOLD], the
    float 0.005, and the analysis pipeline is invoked under the same
    condition; in a one-shot cycle the upload and the analysis happen
    whatever the sizes are.  The pipeline runs on the key that the upload
    call returns.  The comparison on floats settles the comparison of the
    exact ratio with 0.005 outside the rounding margin. *)
Theorem trigger_iff_ratio_above_threshold
    (w : world) (s : attrs) (previousSize : Z) :
  size s = Some previousSize -> is_size previousSize -> is_size (tell w) ->
  let ratio := ChangeMetric_ratio previousSize (tell w) in
  let periodic := events (use_camera w false s) in
  let one_shot := fun s1 : attrs => events (use_camera w true s1) in
  (In (PutObject S3_BUCKET (image_key w) ImageBuffer) periodic
     <-> gt_float ratio CHANGE_THRESHOLD = true)
  /\ (existsb is_image_upload periodic = true
     <-> gt_float ratio CHANGE_THRESHOLD = true)
  /\ (forall s1, existsb is_image_upload (one_shot s1) = true)
  /\ (answered (put_object w (image_key w)) = true ->
      (existsb is_analysis periodic = true
         <-> gt_float ratio CHANGE_THRESHOLD = true)
      /\ (forall s1, existsb is_analysis (one_shot s1) = true))
  /\ (0 < previousSize ->
      let margin := rounding_margin previousSize (tell w) in
      (((1 # 200) + 2 * margin <= exact_ratio previousSize (tell w))%Q ->
         gt_float ratio CHANGE_THRESHOLD = true)
      /\ ((exact_ratio previousSize (tell w) <= (1 # 200) - margin)%Q ->
          gt_float ratio CHANGE_THRESHOLD = false)).
Proof.
  intros Hs Hp Hc ratio periodic one_shot.
  pose proof (size_change_of_sizes _ _ Hp Hc) as E. fold ratio in E.
  pose proof (use_camera_periodic w s previousSize ratio Hs E) as U.
  simpl in U. subst periodic one_shot. rewrite U. clear U.
  set (s' := {| size := Some (tell w); camera_enabled := camera_enabled s |}).
  destruct (shoot_events w s') as (I & A & B).
  assert (Once : forall s1 : attrs,
             existsb is_image_upload (events (use_camera w true s1)) = true
             /\ existsb is_analysis (events (use_camera w true s1))
                = answered (put_object w (image_key w))).
  { intros s1. rewrite use_camera_once. unfold events; simpl.
    destruct (shoot_events w s1) as (_ & A1 & B1). split; assumption. }
  split; [| split; [| split; [intros s1; apply Once | split]]].
  - destruct (gt_float ratio CHANGE_THRESHOLD); unfold events; simpl.
    + unfold events in I. tauto.
    + split; [intros [H | [H | []]]; discriminate | discriminate].
  - destruct (gt_float ratio CHANGE_THRESHOLD); unfold events; simpl.
    + unfold events in A. rewrite A. tauto.
    + split; discriminate.
  - intros Hput. split.
    + destruct (gt_float ratio CHANGE_THRESHOLD); unfold events; simpl.
      * unfold events in B. rewrite B, Hput. tauto.
      * split; discriminate.
    + intros s1. destruct (Once s1) as [_ ->]. exact Hput.
  - intros Hpos. exact (trigger_decides_exact_ratio _ _ Hp Hc Hpos).
Qed.

Lemma trigger_iff_ratio_above_threshold_witness :
  let w := sample_world 1200 "Person" in
  let periodic := events (use_camera w false (monitoring 1000)) in
  existsb is_image_upload periodic = true
  <-> gt_float (ChangeMetric_ratio 1000 (tell w)) CHANGE_THRESHOLD = true.
Proof.
  intros w periodic.
  assert (H1 : size (monitoring 1000) = Some 1000) by reflexivity.
  assert (H2 : is_size 1000) by (unfold is_size; lia).
  assert (H3 : is_size (tell w)) by (unfold is_size; simpl; lia).
  exact (proj1 (proj2
    (trigger_iff_ratio_above_threshold w (monitoring 1000) 1000 H1 H2 H3))).
Defined.

(** With S3 unreachable a one-shot cycle still captures and calls the
    upload; the call raises, so the pipeline is not reached and the
    attributes stay as they were. *)
Example one_shot_offline :
  let run := use_camera (offline_world 1000) true start in
  outcome run = Raise ClientError
  /\ existsb is_image_upload (events run) = true
  /\ existsb is_analysis (events run) = false
  /\ final run = start.
Proof. repeat split. Qed.

(** The threshold is the float that the literal [0.005] denotes: the
    quotient 5/1000 rounded to the nearest float. *)
Lemma CHANGE_THRESHOLD_is_5_per_1000 :
  int_true_divide 5 1000 = Ok CHANGE_THRESHOLD.
Proof. vm_compute. reflexivity. Qed.

(** The scenarios of the specification: 1000 then 1003 bytes do not
    trigger, 1000 then 1200 bytes do. *)
Example scenario_1000_1003 :
  existsb is_image_upload
    (events (use_camera (sample_world 1003 "Person") false (monitoring 1000)))
  = false.
Proof. vm_compute. reflexivity. Qed.

Example scenario_1000_1200 :
  existsb is_image_upload
    (events (use_camera (sample_world 1200 "Person") false (monitoring 1000)))
  = true.
Proof. vm_compute. reflexivity. Qed.

(** The comparison is made on floats: a file that shrinks from 1000 to 995
    bytes has a computed ratio just above the threshold, one that grows
    from 1000 to 1005 bytes a ratio just below it. *)
Example scenario_1000_995 :
  gt_float (ChangeMetric_ratio 1000 995) CHANGE_THRESHOLD = true
  /\ gt_float (ChangeMetric_ratio 1000 1005) CHANGE_THRESHOLD = false.
Proof. split; vm_compute; reflexivity. Qed.

(** ** The cascade *)

Lemma prefix_spec (n h : string) :
  String.prefix n h = true <-> exists b, h = (n ++ b)%string.
Proof.
  revert h; induction n as [| c n IH]; intros h; simpl.
  - split; [intros _; exists h; reflexivity | destruct h; reflexivity].
  - destruct h as [| d h]; [split; [discriminate | intros [b E]; discriminate] |].
    simpl. destruct (Ascii.ascii_dec c d) as [-> | N].
    + rewrite IH. split.
      * intros [b ->]; exists b; reflexivity.
      * intros [b E]; injection E as ->; exists b; reflexivity.
    + split; [discriminate |].
      intros [b E]; injection E as E1 E2; congruence.
Qed.

(** [contains] is the substring test. *)
Lemma contains_spec (n h : string) :
  PyStr.contains n h = true <-> exists a b, h = (a ++ n ++ b)%string.
Proof.
  induction h as [| d h IH]; cbn [PyStr.contains].
  - rewrite orb_false_r.
    destruct n as [| c n]; simpl; split; try discriminate.
    + intros _; exists "", ""; reflexivity.
    + reflexivity.
    + intros (a & b & E). destruct a; discriminate.
  - rewrite orb_true_iff, IH. split.
    + intros [P | (a & b & ->)].
      * apply prefix_spec in P as [b E]. exists "", b. exact E.
      * exists (String d a), b. reflexivity.
    + intros (a & b & E). destruct a as [| c a]; simpl in E.
      * left. apply prefix_spec. exists b. exact E.
      * right. injection E as -> ->. exists a, b. reflexivity.
Qed.

(** The test is sensitive to case and looks inside the name. *)
Example contains_Person :
  PyStr.contains "Person" "Person" = true
  /\ PyStr.contains "Person" "Snowboard Person" = true
  /\ PyStr.contains "Person" "person" = false
  /\ PyStr.contains "Person" "Human" = false.
Proof. repeat split. Qed.

Lemma has_person_false (labels : list Label) :
  has_person labels = false
  <-> forall l, In l labels -> PyStr.contains "Person" (Name l) = false.
Proof.
  unfold has_person. induction labels as [| l ls IH]; simpl.
  - split; [intros _ l [] | reflexivity].
  - rewrite orb_false_iff, IH. split.
    + intros [H1 H2] l' [<- | H]; auto.
    + intros H; split; [apply H; auto | intros l' Hl; apply H; auto].
Qed.

(** C3.  When no label of stage 1 has a name with the substring "Person",
    the run calls neither face detection nor celebrity recognition nor the
    known-face search, and the one record it sends to the store holds the
    image reference and the labels and nothing else. *)
Theorem no_person_no_face_stages
    (w : world) (key : string) (s : attrs) (labels : list Label) :
  detect_labels w key = Some labels ->
  (forall l, In l labels -> PyStr.contains "Person" (Name l) = false) ->
  let run := analyse_image w key s in
  let record := AnalysisRecord key labels None None in
  existsb is_face_call (events run) = false
  /\ filter is_put (events run)
     = [PutObject S3_BUCKET S3_SEEN_KEY (JsonText record)]
  /\ dict_keys record = ["Image"; "Labels"].
Proof.
  intros Hl Hn run record. apply has_person_false in Hn.
  subst run record. unfold_prog. simpl. rewrite Hl. simpl. rewrite Hn. simpl.
  destruct (put_object w S3_SEEN_KEY); simpl; auto.
Qed.

Lemma no_person_no_face_stages_witness :
  let w := sample_world 1000 "Chair" in
  let run := analyse_image w "k" module_attrs in
  existsb is_face_call (events run) = false
  /\ filter is_put (events run)
     = [PutObject S3_BUCKET S3_SEEN_KEY
          (JsonText (AnalysisRecord "k" [ {| Name := "Chair"; label_fields := [] |} ]
                       None None))]
  /\ dict_keys (AnalysisRecord "k" [ {| Name := "Chair"; label_fields := [] |} ]
                  None None) = ["Image"; "Labels"].
Proof.
  intros w run.
  apply (no_person_no_face_stages w "k" module_attrs
           [ {| Name := "Chair"; label_fields := [] |} ]).
  - reflexivity.
  - intros l [<- | []]. reflexivity.
Defined.

(** ** Persistence *)

(** What a run of [analyse_image] writes and how it ends, by the answers
    of the collaborators. *)
Lemma analyse_image_writes (w : world) (key : string) (s : attrs) :
  let run := analyse_image w key s in
  match accumulated w key with
  | Some seen =>
      filter is_put (events run) = [PutObject S3_BUCKET S3_SEEN_KEY (JsonText seen)]
      /\ existsb (failed_stage w) (events run) = false
      /\ outcome run
         = (if answered (put_object w S3_SEEN_KEY) then Ok tt else Raise ClientError)
      /\ forallb (call_returned w) (events run) = answered (put_object w S3_SEEN_KEY)
  | None =>
      filter is_put (events run) = []
      /\ existsb (failed_stage w) (events run) = true
      /\ outcome run = Raise ClientError
      /\ forallb (call_returned w) (events run) = false
  end.
Proof.
  unfold accumulated, failed_stage, analyse_image, upload_seen.
  unfold print, emit, remote, bind, ret, outcome, events. simpl.
  destruct (detect_labels w key) as [labels |] eqn:L; [| now rewrite_answers].
  simpl. destruct (has_person labels); simpl.
  - destruct (detect_faces w key) as [faces |] eqn:F; [| now rewrite_answers].
    simpl. destruct (0 <? Z.of_nat (List.length faces)); simpl.
    + destruct (recognize_celebrities w key) as [c |] eqn:C; [| now rewrite_answers].
      simpl.
      destruct (search_faces_by_image w key) as [m |] eqn:S; [| now rewrite_answers].
      simpl. destruct (put_object w S3_SEEN_KEY) eqn:P; now rewrite_answers.
    + destruct (put_object w S3_SEEN_KEY) eqn:P; now rewrite_answers.
  - destruct (put_object w S3_SEEN_KEY) eqn:P; now rewrite_answers.
Qed.

(** C4.  The record is written whole or not at all.  When every remote
    call that a run of [analyse_image] makes returns, the run ends
    normally and its one write puts the accumulated record under the fixed
    key [S3_SEEN_KEY], whichever stages ran; when the call of a stage
    raises, the run writes nothing. *)
Theorem seen_written_whole_or_not_at_all (w : world) (key : string) (s : attrs) :
  let run := analyse_image w key s in
  (forallb (call_returned w) (events run) = true ->
   exists seen,
     accumulated w key = Some seen
     /\ filter is_put (events run)
        = [PutObject S3_BUCKET S3_SEEN_KEY (JsonText seen)]
     /\ answered (put_object w S3_SEEN_KEY) = true
     /\ outcome run = Ok tt)
  /\ (existsb (failed_stage w) (events run) = true ->
      filter is_put (events run) = []
      /\ outcome run = Raise ClientError).
Proof.
  intros run. pose proof (analyse_image_writes w key s) as H. fold run in H.
  destruct (accumulated w key) as [seen |];
    destruct H as (W & F & O & A); split.
  - intros All. rewrite All in A. exists seen. rewrite O, <- A. auto.
  - intros Bad. congruence.
  - intros All. congruence.
  - intros _. auto.
Qed.

Lemma seen_written_whole_or_not_at_all_witness :
  let run := analyse_image (sample_world 1000 "Person") "k" module_attrs in
  exists seen,
    accumulated (sample_world 1000 "Person") "k" = Some seen
    /\ filter is_put (events run)
       = [PutObject S3_BUCKET S3_SEEN_KEY (JsonText seen)]
    /\ answered (put_object (sample_world 1000 "Person") S3_SEEN_KEY) = true
    /\ outcome run = Ok tt.
Proof.
  intros run.
  apply (proj1 (seen_written_whole_or_not_at_all
                  (sample_world 1000 "Person") "k" module_attrs)).
  reflexivity.
Defined.

(** The record of a full run holds the five fields, in the order in which
    the stages wrote them. *)
Example accumulated_full :
  option_map dict_keys (accumulated (sample_world 1000 "Person") "k")
  = Some ["Image"; "Labels"; "FaceDetails"; "CelebrityFaces"; "FaceMatches"].
Proof. reflexivity. Qed.

(** ** Attributes are written by three statements only *)

Section Preserves.

Context {A B : Type}.

Lemma preserves_ret (a : A) : preserves (ret a).
Proof. intros s; reflexivity. Qed.

Lemma preserves_lift (r : result A) : preserves (lift r).
Proof. intros s; reflexivity. Qed.

Lemma preserves_remote (e : event) (a : option A) : preserves (remote e a).
Proof. intros s; unfold remote; destruct a; reflexivity. Qed.

Lemma preserves_bind (m : M A) (f : A -> M B) :
  preserves m -> (forall a, preserves (f a)) -> preserves (bind m f).
Proof.
  intros Hm Hf s. unfold bind.
  pose proof (Hm s) as H1. unfold final in H1.
  destruct (m s) as [[[a | e] s1] t1]; simpl in H1; subst s1.
  - pose proof (Hf a s) as H2. unfold final in *.
    destruct (f a s) as [[r s2] t2]. exact H2.
  - reflexivity.
Qed.

End Preserves.

Lemma preserves_emit (e : event) : preserves (emit e).
Proof. intros s; reflexivity. Qed.

Lemma preserves_print (template : string) (args : list fmt_arg) :
  preserves (print template args).
Proof. intros s; reflexivity. Qed.

Lemma preserves_print_value (w : world) (template : string) (v : json) :
  preserves (print_value w template v).
Proof. intros s; unfold print_value; destruct (printable w v); reflexivity. Qed.

Ltac frame :=
  repeat first
    [ apply preserves_ret | apply preserves_lift | apply preserves_remote
    | apply preserves_emit | apply preserves_print | apply preserves_print_value
    | apply preserves_bind; [| intros ? ]
    | match goal with
      | |- preserves (if ?b then _ else _) => destruct b
      | |- preserves (let _ := _ in _) => cbv zeta
      end ].

Lemma upload_image_and_get_key_preserves (w : world) :
  preserves (upload_image_and_get_key w).
Proof. unfold upload_image_and_get_key. frame. Qed.

Lemma analyse_image_preserves (w : world) (key : string) :
  preserves (analyse_image w key).
Proof. unfold analyse_image, upload_seen. frame. Qed.

Lemma index_face_preserves (w : world) (name : string) :
  preserves (index_face w name).
Proof.
  unfold index_face, take_picture, upload_image_and_get_key. frame.
Qed.

Lemma use_camera_once_preserves (w : world) : preserves (use_camera w true).
Proof.
  intros s. rewrite use_camera_once. apply shoot_preserves.
Qed.

(** A periodic cycle writes [size] and nothing else. *)
Lemma use_camera_periodic_final (w : world) (s : attrs) :
  final (use_camera w false s)
  = match size s with
    | Some _ => {| size := Some (tell w); camera_enabled := camera_enabled s |}
    | None => s
    end.
Proof.
  destruct (size s) as [n |] eqn:Hs.
  - destruct (size_change_of n (tell w)) as [x | e] eqn:Hx.
    + rewrite (use_camera_periodic w s n x Hs Hx).
      destruct (gt_float x CHANGE_THRESHOLD); [| reflexivity].
      unfold final at 1; simpl. apply shoot_preserves.
    + unfold use_camera, measure, take_picture, bind, emit, get_size, set_size,
        lift, final. simpl. rewrite Hs. simpl. rewrite Hx. reflexivity.
  - unfold use_camera, measure, take_picture, bind, emit, get_size, final.
    simpl. rewrite Hs. reflexivity.
Qed.

(** ** The command router *)

Lemma message_received_object (w : world) (m : message) (s : attrs) (d : dict) :
  payload m = Parsed (JDict d) ->
  message_received w m s
  = (outcome (route w d s), final (route w d s), receipt m ++ events (route w d s)).
Proof.
  intros Hp. unfold message_received, route, receipt, outcome, final, events.
  unfold bind, print, emit, lift. simpl. rewrite Hp. simpl. unfold dict_has.
  destruct (dict_get d "camera") as [state |]; simpl.
  - destruct (eq_str state "enable"); [| destruct (eq_str state "disable");
      [| destruct (eq_str state "use")]].
    + destruct (enable_camera s) as [[r s'] t]. reflexivity.
    + destruct (disable_camera s) as [[r s'] t]. reflexivity.
    + destruct (use_camera w true s) as [[r s'] t]. reflexivity.
    + destruct (print_value w _ state s) as [[r s'] t]. reflexivity.
  - destruct (dict_get d "index") as [value |]; simpl; [| reflexivity].
    destruct (py_capitalize w value) as [name | e]; simpl; [| reflexivity].
    destruct (index_face w name s) as [[r s'] t]. reflexivity.
Qed.

Lemma message_received_not_json (w : world) (m : message) (s : attrs) :
  payload m = NotJson ->
  message_received w m s = (Raise JSONDecodeError, s, receipt m).
Proof.
  intros Hp. unfold message_received, receipt, bind, print, emit, lift.
  simpl. rewrite Hp. reflexivity.
Qed.

Lemma eq_str_true (v : json) (k : string) : eq_str v k = true <-> v = JStr k.
Proof.
  destruct v; simpl; try (split; [discriminate | intros [=]]).
  rewrite String.eqb_eq. split; [intros -> | intros [= ->]]; reflexivity.
Qed.

Lemma message_received_events (w : world) (m : message) (s : attrs) (d : dict) :
  payload m = Parsed (JDict d) ->
  events (message_received w m s) = receipt m ++ events (route w d s)
  /\ final (message_received w m s) = final (route w d s)
  /\ outcome (message_received w m s) = outcome (route w d s).
Proof.
  intros Hp. rewrite (message_received_object w m s d Hp). repeat split.
Qed.

Lemma receipt_quiet (m : message) :
  existsb is_capture (receipt m) = false /\ existsb is_remote (receipt m) = false.
Proof. split; reflexivity. Qed.

(** A payload that is not JSON makes the router raise: the call of
    [json.loads] is not guarded. *)
Lemma non_json_payload_raises :
  outcome (message_received (sample_world 1000 "Person")
             {| payload := NotJson; topic := SUBSCRIBE_TOPIC |} start)
  = Raise JSONDecodeError.
Proof. reflexivity. Qed.

(** C5, as the router has it.  A message whose payload is a JSON object
    that is none of the recognized commands (a "camera" value that is not
    known, or neither a "camera" nor an "index" key) writes no attribute
    and makes no capture and no remote call.  With neither key the router
    prints one line about the unknown command after the receipt, and
    returns.  With a "camera" value that is not known it prints one line
    about the unknown state and returns when stdout can encode the text
    of the value, which it always can when the value is of ASCII
    characters; when it cannot, the print raises [UnicodeEncodeError] out
    of the router, after the receipt.  A payload that is not JSON is not
    among them: the router prints the receipt and then raises, still
    without a capture or a write. *)
Theorem unrecognized_command_is_logged (w : world) (m : message) (s : attrs) :
  let run := message_received w m s in
  (forall d, payload m = Parsed (JDict d) -> unrecognized d = true ->
     final run = s
     /\ existsb is_capture (events run) = false
     /\ existsb is_remote (events run) = false
     /\ match dict_get d "camera" with
        | None =>
            outcome run = Ok tt
            /\ events run
               = receipt m ++ [Print "Unknown command: {}" [Dumps (JDict d)]]
        | Some state =>
            (printable w state = true ->
               outcome run = Ok tt
               /\ events run
                  = receipt m ++ [Print "Unknown camera state: {}" [Obj state]])
            /\ (printable w state = false ->
                  outcome run = Raise UnicodeEncodeError
                  /\ events run = receipt m)
            /\ (ascii_value state = true -> outcome run = Ok tt)
        end)
  /\ (payload m = NotJson ->
      outcome run = Raise JSONDecodeError
      /\ final run = s
      /\ events run = receipt m).
Proof.
  intros run; subst run; split.
  - intros d Hp Hu. rewrite (message_received_object w m s d Hp).
    unfold outcome at 1 2 3 4, final at 1, events at 1 2 3 4 5.
    simpl fst; simpl snd.
    unfold route, unrecognized, dict_has in *.
    destruct (dict_get d "camera") as [state |].
    + apply negb_true_iff in Hu. apply orb_false_iff in Hu as [Hu Hu3].
      apply orb_false_iff in Hu as [Hu1 Hu2]. rewrite Hu1, Hu2, Hu3.
      unfold print_value, printable.
      destruct (ascii_value state); simpl.
      * repeat split; try reflexivity; congruence.
      * destruct (stdout_encodes w state); simpl;
          repeat split; try reflexivity; congruence.
    + destruct (dict_get d "index"); [discriminate |].
      repeat split; reflexivity.
  - intros Hp. rewrite (message_received_not_json w m s Hp). auto.
Qed.

Lemma unrecognized_command_is_logged_witness :
  let m := command "camera" "frobnicate" in
  let run := message_received (sample_world 1000 "Person") m start in
  outcome run = Ok tt
  /\ final run = start
  /\ existsb is_capture (events run) = false
  /\ existsb is_remote (events run) = false.
Proof.
  intros m run.
  destruct (proj1 (unrecognized_command_is_logged
                     (sample_world 1000 "Person") m start)
              [("camera", JStr "frobnicate")] eq_refl eq_refl)
    as (H2 & H3 & H4 & _ & _ & H1).
  split; [exact (H1 eq_refl) | split; [exact H2 | split; [exact H3 | exact H4]]].
Defined.

(** A "camera" value that stdout cannot encode makes the router raise at
    the print of the unknown state: here the lone surrogate U+D800, on a
    stdout that takes ASCII text only. *)
Example unencodable_camera_state_raises :
  let surrogate := String "237" (String "160" (String "128" EmptyString)) in
  let m := {| payload := Parsed (JDict [("camera", JStr surrogate)]);
              topic := SUBSCRIBE_TOPIC |} in
  message_received (sample_world 1000 "Person") m start
  = (Raise UnicodeEncodeError, start, receipt m).
Proof. reflexivity. Qed.

(** ** Enabling, and the first cycle after it *)

Lemma zero_not_above_threshold : gt_float (NInt 0) CHANGE_THRESHOLD = false.
Proof. reflexivity. Qed.

(** C6.  The enable command sets the remembered size to 0; the periodic
    cycle that follows it computes the ratio 0 whatever the size of its
    capture is, and makes no upload and no other remote call: it only
    remembers the size it saw. *)
Theorem first_cycle_after_enable_is_silent
    (w0 w : world) (m : message) (s : attrs) (d : dict) :
  payload m = Parsed (JDict d) ->
  dict_get d "camera" = Some (JStr "enable") ->
  let enabled := final (message_received w0 m s) in
  let cycle := poll w enabled in
  size enabled = Some 0
  /\ camera_enabled enabled = Some true
  /\ outcome (measure w false enabled) = Ok (Some (NInt 0))
  /\ outcome cycle = Ok tt
  /\ In Capture (events cycle)
  /\ existsb is_remote (events cycle) = false
  /\ final cycle = {| size := Some (tell w); camera_enabled := Some true |}.
Proof.
  intros Hp Hd enabled cycle.
  assert (E : enabled = {| size := Some 0; camera_enabled := Some true |}).
  { subst enabled. rewrite (message_received_object w0 m s d Hp).
    unfold final at 1; simpl. unfold route. rewrite Hd. reflexivity. }
  subst cycle. rewrite E. repeat split; simpl; auto.
Qed.

Lemma first_cycle_after_enable_is_silent_witness :
  let enabled :=
    final (message_received (sample_world 1000 "Person")
             (command "camera" "enable") (monitoring 1000)) in
  let cycle := poll (sample_world 123456 "Person") enabled in
  size enabled = Some 0
  /\ outcome cycle = Ok tt
  /\ existsb is_remote (events cycle) = false.
Proof.
  intros enabled cycle.
  destruct (first_cycle_after_enable_is_silent
              (sample_world 1000 "Person") (sample_world 123456 "Person")
              (command "camera" "enable") (monitoring 1000)
              [("camera", JStr "enable")] eq_refl eq_refl)
    as (H1 & _ & _ & H2 & _ & H3 & _).
  repeat split; assumption.
Defined.

(** ** Enrolment *)

Lemma route_index (w : world) (d : dict) (name : string) (s : attrs) :
  dict_get d "camera" = None -> dict_get d "index" = Some (JStr name) ->
  route w d s = index_face w (capitalize w name) s.
Proof.
  intros Hc Hi. unfold route. rewrite Hc, Hi. unfold bind, lift. simpl.
  destruct (index_face w (capitalize w name) s) as [[r s'] t]. reflexivity.
Qed.

Lemma index_face_unprintable (w : world) (name : string) (s : attrs) :
  printable w (JStr name) = false ->
  index_face w name s = (Raise UnicodeEncodeError, s, []).
Proof.
  intros H. unfold index_face, print_value, bind, lift. rewrite H. reflexivity.
Qed.


Lemma registered_app (t1 t2 : list event) :
  registered (t1 ++ t2) = registered t1 ++ registered t2.
Proof. apply flat_map_app. Qed.





Lemma case_char_ascii (c : ascii) :
  (N_of_ascii c <? 128)%N = true ->
  (N_of_ascii (PyStr.upper_char c) <? 128)%N = true
  /\ (N_of_ascii (PyStr.lower_char c) <? 128)%N = true.
Proof.
  destruct c as [[|] [|] [|] [|] [|] [|] [|] [|]]; vm_compute; auto.
Qed.

Lemma lower_ascii_only (s : string) :
  PyStr.ascii_only s = true -> PyStr.ascii_only (PyStr.lower s) = true.
Proof.
  induction s as [| c s IH]; simpl; [reflexivity |].
  intros H. apply andb_true_iff in H as [Hc Hs].
  rewrite (proj2 (case_char_ascii c Hc)), (IH Hs). reflexivity.
Qed.

Lemma capitalize_ascii_only (s : string) :
  PyStr.ascii_only s = true -> PyStr.ascii_only (PyStr.capitalize_ascii s) = true.
Proof.
  destruct s as [| c s]; simpl; [reflexivity |].
  intros H. apply andb_true_iff in H as [Hc Hs].
  rewrite (proj1 (case_char_ascii c Hc)), (lower_ascii_only s Hs). reflexivity.
Qed.




(** ** One-shot captures *)

(** C8.  A "use" command captures and uploads whatever the attributes
    are, set or not, and leaves them as they were: a one-shot cycle
    writes neither [camera_enabled] nor [size].  Of the two kinds of
    cycle only the periodic one writes [size], and it writes the size of
    its capture. *)
Theorem one_shot_leaves_state
    (w : world) (m : message) (s : attrs) (d : dict) :
  payload m = Parsed (JDict d) ->
  dict_get d "camera" = Some (JStr "use") ->
  let run := message_received w m s in
  final run = s
  /\ In Capture (events run)
  /\ In (PutObject S3_BUCKET (image_key w) ImageBuffer) (events run)
  /\ final (use_camera w true s) = s
  /\ (forall n, size s = Some n ->
        final (use_camera w false s)
        = {| size := Some (tell w); camera_enabled := camera_enabled s |}).
Proof.
  intros Hp Hd run.
  assert (E : run = (outcome (use_camera w true s), final (use_camera w true s),
                     receipt m ++ events (use_camera w true s))).
  { subst run. rewrite (message_received_object w m s d Hp).
    unfold route. rewrite Hd. reflexivity. }
  assert (Ef : final run = final (use_camera w true s)) by (rewrite E; reflexivity).
  assert (Ee : events run = receipt m ++ events (use_camera w true s))
    by (rewrite E; reflexivity).
  rewrite Ef, Ee. clear E Ef Ee run.
  pose proof (use_camera_once_preserves w s) as F.
  split; [exact F | split; [| split; [| split; [exact F |]]]].
  - apply in_or_app; right. rewrite use_camera_once. left; reflexivity.
  - apply in_or_app; right. rewrite use_camera_once. right.
    apply (shoot_events w s).
  - intros n Hn. rewrite use_camera_periodic_final, Hn. reflexivity.
Qed.

Lemma one_shot_leaves_state_witness :
  final (message_received (sample_world 500 "Person") (command "camera" "use") start)
  = start.
Proof.
  exact (proj1 (one_shot_leaves_state
                  (sample_world 500 "Person") (command "camera" "use") start
                  [("camera", JStr "use")] eq_refl eq_refl)).
Defined.

(** ** The attributes over the life of the process *)

(** At the start of the loop [use_camera.size] has not been set. *)
Lemma size_unset_at_start : size start = None /\ size start <> Some 0.
Proof. split; [reflexivity | discriminate]. Qed.

Lemma route_final (w : world) (d : dict) (s : attrs) :
  final (route w d s) = s
  \/ final (route w d s) = {| size := Some 0; camera_enabled := Some true |}
  \/ final (route w d s) = {| size := size s; camera_enabled := Some false |}.
Proof.
  unfold route.
  destruct (dict_get d "camera") as [state |].
  - destruct (eq_str state "enable"); [right; left; reflexivity |].
    destruct (eq_str state "disable"); [right; right; reflexivity |].
    destruct (eq_str state "use"); left.
    + apply use_camera_once_preserves.
    + apply preserves_print_value.
  - left. destruct (dict_get d "index") as [value |]; [| reflexivity].
    apply preserves_bind; [apply preserves_lift | intros name; apply index_face_preserves].
Qed.

Lemma message_received_final (w : world) (m : message) (s : attrs) :
  final (message_received w m s) = s
  \/ final (message_received w m s) = {| size := Some 0; camera_enabled := Some true |}
  \/ final (message_received w m s) = {| size := size s; camera_enabled := Some false |}.
Proof.
  destruct (payload m) as [| | v] eqn:Hp.
  - left. unfold message_received, bind, print, emit, lift, final. simpl.
    rewrite Hp. reflexivity.
  - left. rewrite (message_received_not_json w m s Hp). reflexivity.
  - destruct v as [| b | z | f | t | l | d];
      try (left; unfold message_received, bind, print, emit, lift, final; simpl;
           rewrite Hp; simpl; reflexivity).
    + left. unfold message_received, bind, print, emit, lift, final. simpl.
      rewrite Hp. simpl.
      destruct (PyStr.contains "camera" t); simpl; [reflexivity |].
      destruct (PyStr.contains "index" t); reflexivity.
    + left. unfold message_received, bind, print, emit, lift, final. simpl.
      rewrite Hp. simpl.
      destruct (existsb _ l); simpl; [reflexivity |].
      destruct (existsb _ l); reflexivity.
    + rewrite (message_received_object w m s d Hp). apply route_final.
Qed.

Lemma poll_final (w : world) (s : attrs) :
  final (poll w s) = s
  \/ (camera_enabled s = Some true
      /\ final (poll w s) = final (use_camera w false s)).
Proof.
  unfold poll, bind, emit, get_camera_enabled. simpl.
  destruct (camera_enabled s) as [[|] |]; simpl; auto.
  right. split; [reflexivity |].
  destruct (use_camera w false s) as [[r s'] t]. reflexivity.
Qed.

(** What handling a message does to the attributes. *)
Lemma message_received_attrs (w : world) (m : message) (s : attrs) :
  final (message_received w m s) = s
  \/ (exists d, payload m = Parsed (JDict d)
                /\ dict_get d "camera" = Some (JStr "enable")
                /\ final (message_received w m s)
                   = {| size := Some 0; camera_enabled := Some true |})
  \/ (exists d, payload m = Parsed (JDict d)
                /\ dict_get d "camera" = Some (JStr "disable")
                /\ final (message_received w m s)
                   = {| size := size s; camera_enabled := Some false |}).
Proof.
  destruct (payload m) as [| | v] eqn:Hp.
  - left. unfold message_received, bind, print, emit, lift, final. simpl.
    rewrite Hp. reflexivity.
  - left. rewrite (message_received_not_json w m s Hp). reflexivity.
  - destruct v as [| b | z | f | t | l | d];
      try (left; unfold message_received, bind, print, emit, lift, final; simpl;
           rewrite Hp; simpl; reflexivity).
    + left. unfold message_received, bind, print, emit, lift, final. simpl.
      rewrite Hp. simpl.
      destruct (PyStr.contains "camera" t); simpl; [reflexivity |].
      destruct (PyStr.contains "index" t); reflexivity.
    + left. unfold message_received, bind, print, emit, lift, final. simpl.
      rewrite Hp. simpl.
      destruct (existsb _ l); simpl; [reflexivity |].
      destruct (existsb _ l); reflexivity.
    + destruct (message_received_events w m s d Hp) as (_ & -> & _).
      unfold route. destruct (dict_get d "camera") as [state |] eqn:Hd.
      * destruct (eq_str state "enable") eqn:E1.
        { apply eq_str_true in E1. subst state.
          right; left. exists d. split; [reflexivity | split; [exact Hd | reflexivity]]. }
        destruct (eq_str state "disable") eqn:E2.
        { apply eq_str_true in E2. subst state.
          right; right. exists d.
          split; [reflexivity | split; [exact Hd | reflexivity]]. }
        left. destruct (eq_str state "use");
          [apply use_camera_once_preserves | apply preserves_print_value].
      * left. destruct (dict_get d "index") as [value |]; [| reflexivity].
        apply preserves_bind;
          [apply preserves_lift | intros name; apply index_face_preserves].
Qed.

Lemma well_formed_step (i : input) (s : attrs) :
  well_formed s -> well_formed (final (step i s)).
Proof.
  intros [[b Hb] Hs]. destruct i as [w | m w]; simpl.
  - destruct (poll_final w s) as [-> | [He ->]]; [split; eauto |].
    rewrite use_camera_periodic_final.
    destruct (Hs He) as [n ->]. split; simpl; eauto.
  - destruct (message_received_final w m s) as [-> | [-> | ->]].
    + split; eauto.
    + split; simpl; eauto.
    + split; simpl; eauto. discriminate.
Qed.

Lemma reachable_well_formed (s : attrs) : reachable s -> well_formed s.
Proof.
  induction 1 as [| s i _ IH].
  - split; [exists false; reflexivity | discriminate].
  - apply well_formed_step, IH.
Qed.

Lemma size_change_of_raises (previous_size current_size : Z) (e : exn) :
  size_change_of previous_size current_size = Raise e ->
  e = ZeroDivisionError \/ e = OverflowError.
Proof.
  unfold size_change_of, int_true_divide.
  destruct (previous_size >? 0); [| discriminate].
  destruct (previous_size =? 0); [intros [= <-]; auto |].
  destruct (SFdiv _ _ _ _); intros [= <-]; auto.
Qed.

(** C9, as [main] has it.  When the loop starts and no command has been
    handled, [camera_enabled] is [False] and [size] has not been set.
    [size] is set to 0 by the enable command, the only statement that
    makes [camera_enabled] true, so whenever monitoring is active [size]
    holds a number, and no turn of the loop reads an attribute that is
    not set. *)
Theorem camera_state_at_start :
  camera_enabled start = Some false
  /\ size start = None
  /\ (forall s, reachable s ->
        (exists b, camera_enabled s = Some b)
        /\ (camera_enabled s = Some true -> exists n, size s = Some n))
  /\ (forall s w, reachable s -> outcome (poll w s) <> Raise AttributeError)
  /\ (forall w, final (poll w start) = start
                /\ events (poll w start) = [Sleep SLEEP_TIME])
  /\ (forall w m s d,
        payload m = Parsed (JDict d) ->
        dict_get d "camera" = Some (JStr "enable") ->
        final (message_received w m s)
        = {| size := Some 0; camera_enabled := Some true |})
  /\ (forall i s,
        camera_enabled (final (step i s)) = Some true ->
        camera_enabled s = Some true
        \/ exists m w d, i = Message m w
                         /\ payload m = Parsed (JDict d)
                         /\ dict_get d "camera" = Some (JStr "enable")).
Proof.
  split; [reflexivity | split; [reflexivity | split; [| split; [| split; [| split]]]]].
  - intros s R. exact (reachable_well_formed s R).
  - intros s w R. destruct (reachable_well_formed s R) as [[b Hb] Hs].
    unfold poll, bind, emit, get_camera_enabled, outcome. simpl. rewrite Hb.
    destruct b; simpl; [| discriminate].
    destruct (Hs Hb) as [n Hn].
    destruct (size_change_of n (tell w)) as [x | e] eqn:Hx.
    + rewrite (use_camera_periodic w s n x Hn Hx).
      destruct (gt_float x CHANGE_THRESHOLD); simpl; [| discriminate].
      unfold shoot. unfold_prog. simpl. split_answers; discriminate.
    + unfold use_camera, measure, take_picture, bind, emit, get_size, set_size, lift.
      simpl. rewrite Hn. simpl. rewrite Hx. simpl.
      destruct (size_change_of_raises n (tell w) e Hx) as [-> | ->]; discriminate.
  - intros w. split; reflexivity.
  - intros w m s d Hp Hd. rewrite (message_received_object w m s d Hp).
    unfold final at 1; simpl. unfold route. rewrite Hd. reflexivity.
  - intros [w | m w] s T; simpl in T.
    + left. destruct (poll_final w s) as [E | [He _]]; [rewrite <- E; exact T | exact He].
    + destruct (message_received_attrs w m s) as [E | [(d & Hp & Hd & _) | (d & _ & _ & E)]].
      * left. rewrite <- E. exact T.
      * right. exists m, w, d. repeat split; assumption.
      * rewrite E in T. discriminate.
Qed.

(** ** The local variable [size_change] *)

Lemma measure_assigns (w : world) (once : bool) (s : attrs) (x : option number) :
  outcome (measure w once s) = Ok x ->
  if once then x = None else exists r, x = Some r.
Proof.
  unfold measure, bind, get_size, set_size, lift, print, emit, ret, outcome.
  destruct once; simpl.
  - intros [= <-]. reflexivity.
  - destruct (size s) as [n |]; simpl; [| discriminate].
    destruct (size_change_of n (tell w)) as [r | e]; simpl; [| discriminate].
    intros [= <-]. exists r. reflexivity.
Qed.

(** C10.  [use_camera] never reads [size_change] before it is assigned.
    With [once=True] the condition is true without its comparison being
    evaluated, so the variable, which is then unassigned, is not read;
    with [once=False] every run that reaches the condition has assigned
    the variable.  No run raises [UnboundLocalError]. *)
Theorem size_change_is_assigned_before_read (w : world) (once : bool) (s : attrs) :
  (forall size_change, trigger true size_change = Ok true)
  /\ (forall x, outcome (measure w true s) = Ok x -> x = None)
  /\ (forall x, outcome (measure w false s) = Ok x ->
        exists r, x = Some r
                  /\ trigger false x = Ok (gt_float r CHANGE_THRESHOLD))
  /\ outcome (use_camera w once s) <> Raise UnboundLocalError.
Proof.
  split; [reflexivity | split; [| split]].
  - intros x Hx. exact (measure_assigns w true s x Hx).
  - intros x Hx. destruct (measure_assigns w false s x Hx) as [r ->].
    exists r. split; reflexivity.
  - destruct once.
    + rewrite use_camera_once. unfold outcome at 1; simpl.
      unfold shoot. unfold_prog. simpl. split_answers; discriminate.
    + destruct (size s) as [n |] eqn:Hn.
      * destruct (size_change_of n (tell w)) as [x | e] eqn:Hx.
        -- rewrite (use_camera_periodic w s n x Hn Hx).
           destruct (gt_float x CHANGE_THRESHOLD); simpl; [| discriminate].
           unfold shoot. unfold_prog. simpl. split_answers; discriminate.
        -- unfold use_camera, measure, take_picture, bind, emit, get_size,
             set_size, lift, outcome. simpl. rewrite Hn. simpl. rewrite Hx. simpl.
           destruct (size_change_of_raises n (tell w) e Hx) as [-> | ->]; discriminate.
      * unfold use_camera, measure, take_picture, bind, emit, get_size, outcome.
        simpl. rewrite Hn. discriminate.
Qed.

(** * Further properties of the program *)

(** ** The stages of the cascade *)

(** X1.  When a label names a person but face detection finds no face,
    [analyse_image] calls neither celebrity recognition nor the known-face
    search, and the record it writes holds the image reference, the
    labels and an empty list of faces. *)
Theorem no_face_no_recognition
    (w : world) (key : string) (s : attrs) (labels : list Label) :
  detect_labels w key = Some labels ->
  has_person labels = true ->
  detect_faces w key = Some [] ->
  let run := analyse_image w key s in
  filter is_remote (events run)
  = [ DetectLabels S3_BUCKET key 5 70;
      DetectFaces S3_BUCKET key ["ALL"];
      PutObject S3_BUCKET S3_SEEN_KEY
        (JsonText (AnalysisRecord key labels (Some []) None)) ]
  /\ dict_keys (AnalysisRecord key labels (Some []) None)
     = ["Image"; "Labels"; "FaceDetails"]
  /\ dict_get (AnalysisRecord key labels (Some []) None) "FaceDetails"
     = Some (JList []).
Proof.
  intros Hl Hp Hf run. subst run.
  unfold analyse_image, upload_seen, print, emit, remote, bind, ret, events.
  simpl. rewrite Hl. simpl. rewrite Hp. simpl. rewrite Hf. simpl.
  destruct (put_object w S3_SEEN_KEY); simpl; auto.
Qed.

Lemma no_face_no_recognition_witness :
  let w := {| tell := 1000; strftime := "20240101120000";
              put_object := fun _ => Some (JDict []);
              detect_labels := fun _ => Some [ {| Name := "Person"; label_fields := [] |} ];
              detect_faces := fun _ => Some [];
              recognize_celebrities := fun _ => None;
              search_faces_by_image := fun _ => None;
              index_faces := fun _ _ => None;
              stdout_encodes := fun _ => false;
              unicode_capitalize := fun s => s |} in
  filter is_remote (events (analyse_image w "k" start))
  = [ DetectLabels S3_BUCKET "k" 5 70;
      DetectFaces S3_BUCKET "k" ["ALL"];
      PutObject S3_BUCKET S3_SEEN_KEY
        (JsonText (AnalysisRecord "k" [ {| Name := "Person"; label_fields := [] |} ]
                     (Some []) None)) ].
Proof.
  intros w.
  exact (proj1 (no_face_no_recognition w "k" start
                  [ {| Name := "Person"; label_fields := [] |} ]
                  eq_refl eq_refl eq_refl)).
Defined.

(** X2.  When a label names a person, a face is found and the calls
    return, [analyse_image] makes its four Rekognition calls in the order
    labels, faces, celebrities, known faces, all on the same bucket and
    key, and then writes the record with the five fields, each holding
    the answer of its stage. *)
Theorem full_cascade_in_order
    (w : world) (key : string) (s : attrs) (labels : list Label)
    (face : json) (faces celebrities matches : list json) :
  detect_labels w key = Some labels ->
  has_person labels = true ->
  detect_faces w key = Some (face :: faces) ->
  recognize_celebrities w key = Some celebrities ->
  search_faces_by_image w key = Some matches ->
  let run := analyse_image w key s in
  let record :=
    AnalysisRecord key labels (Some (face :: faces)) (Some (celebrities, matches)) in
  filter is_remote (events run)
  = [ DetectLabels S3_BUCKET key 5 70;
      DetectFaces S3_BUCKET key ["ALL"];
      RecognizeCelebrities S3_BUCKET key;
      SearchFacesByImage REKOGNITION_COLLECTION_ID S3_BUCKET key;
      PutObject S3_BUCKET S3_SEEN_KEY (JsonText record) ]
  /\ dict_keys record
     = ["Image"; "Labels"; "FaceDetails"; "CelebrityFaces"; "FaceMatches"]
  /\ dict_get record "Image" = Some (image_ref key)
  /\ dict_get record "Labels" = Some (JList (map label_json labels))
  /\ dict_get record "FaceDetails" = Some (JList (face :: faces))
  /\ dict_get record "CelebrityFaces" = Some (JList celebrities)
  /\ dict_get record "FaceMatches" = Some (JList matches).
Proof.
  intros Hl Hp Hf Hc Hm run record. subst run record.
  unfold analyse_image, upload_seen, print, emit, remote, bind, ret, events.
  simpl. rewrite Hl. simpl. rewrite Hp. simpl. rewrite Hf. simpl.
  rewrite Hc. simpl. rewrite Hm. simpl.
  destruct (put_object w S3_SEEN_KEY); simpl; repeat split; reflexivity.
Qed.

Lemma full_cascade_in_order_witness :
  dict_keys (AnalysisRecord "k" [ {| Name := "Person"; label_fields := [] |} ]
               (Some [JDict []]) (Some ([], [])))
  = ["Image"; "Labels"; "FaceDetails"; "CelebrityFaces"; "FaceMatches"].
Proof.
  exact (proj1 (proj2 (full_cascade_in_order (sample_world 1000 "Person") "k" start
                         [ {| Name := "Person"; label_fields := [] |} ]
                         (JDict []) [] [] []
                         eq_refl eq_refl eq_refl eq_refl eq_refl))).
Defined.

(** X3.  A run of [analyse_image] that raises has stopped at the remote
    call that raised: that call is the last event of its trace, every call
    before it returned, and no call follows it.  In particular a failed
    celebrity recognition is not followed by the known-face search. *)
Theorem cascade_stops_at_the_failed_call (w : world) (key : string) (s : attrs) :
  let run := analyse_image w key s in
  (outcome run = Ok tt \/ outcome run = Raise ClientError)
  /\ (outcome run = Raise ClientError ->
      exists e, last_event (events run) = Some e
                /\ is_remote e = true
                /\ call_returned w e = false
                /\ forallb (call_returned w) (removelast (events run)) = true)
  /\ (recognize_celebrities w key = None ->
      existsb (fun e => match e with
                        | SearchFacesByImage _ _ _ => true
                        | _ => false
                        end) (events run) = false).
Proof.
  intros run. subst run.
  unfold analyse_image, upload_seen, print, emit, remote, bind, ret, outcome, events.
  simpl. split_answers.
  all: split; [auto | split].
  all: first [ discriminate
             | intros _; simpl; reflexivity
             | intros _; eexists;
               split; [unfold last_event; simpl; reflexivity |];
               rewrite_answers; repeat split; reflexivity ].
Qed.

(** ** The loop *)

Lemma poll_disabled (w : world) (s : attrs) :
  camera_enabled s = Some false -> poll w s = (Ok tt, s, [Sleep SLEEP_TIME]).
Proof.
  intros H. unfold poll, bind, emit, get_camera_enabled, ret. simpl.
  rewrite H. reflexivity.
Qed.

Lemma polls_disabled (ws : list world) (s : attrs) :
  camera_enabled s = Some false ->
  polls ws s = (Ok tt, s, map (fun _ => Sleep SLEEP_TIME) ws).
Proof.
  intros H. induction ws as [| w ws IH]; [reflexivity |].
  cbn [polls]. unfold bind. rewrite (poll_disabled w s H), IH. reflexivity.
Qed.

(** X4.  A disable command turns monitoring off and keeps the remembered
    size; from then on, as at the start of the process, the turns of the
    loop only sleep: they make no capture and no remote call and write no
    attribute, however many they are. *)
Theorem disabled_loop_only_sleeps
    (w0 : world) (m : message) (s : attrs) (d : dict) (ws : list world) :
  payload m = Parsed (JDict d) ->
  dict_get d "camera" = Some (JStr "disable") ->
  let off := final (message_received w0 m s) in
  off = {| size := size s; camera_enabled := Some false |}
  /\ polls ws off = (Ok tt, off, map (fun _ => Sleep SLEEP_TIME) ws)
  /\ polls ws start = (Ok tt, start, map (fun _ => Sleep SLEEP_TIME) ws).
Proof.
  intros Hp Hd off.
  assert (E : off = {| size := size s; camera_enabled := Some false |}).
  { subst off. rewrite (message_received_object w0 m s d Hp).
    unfold final at 1; simpl. unfold route. rewrite Hd. reflexivity. }
  split; [exact E | split].
  - apply polls_disabled. rewrite E. reflexivity.
  - apply polls_disabled. reflexivity.
Qed.

Lemma disabled_loop_only_sleeps_witness :
  let off := final (message_received (sample_world 1000 "Person")
                      (command "camera" "disable") (monitoring 1000)) in
  polls [sample_world 1 "Person"; sample_world 2000 "Person"] off
  = (Ok tt, off, [Sleep SLEEP_TIME; Sleep SLEEP_TIME]).
Proof.
  intros off.
  exact (proj1 (proj2 (disabled_loop_only_sleeps
                         (sample_world 1000 "Person") (command "camera" "disable")
                         (monitoring 1000) [("camera", JStr "disable")]
                         [sample_world 1 "Person"; sample_world 2000 "Person"]
                         eq_refl eq_refl))).
Defined.

Lemma poll_calm (w : world) (s : attrs) (n : Z) :
  camera_enabled s = Some true -> size s = Some n ->
  is_size n -> is_size (tell w) ->
  gt_float (ChangeMetric_ratio n (tell w)) CHANGE_THRESHOLD = false ->
  poll w s
  = (Ok tt, {| size := Some (tell w); camera_enabled := Some true |},
     [ Sleep SLEEP_TIME; Capture;
       Print "size: {0} - previous: {1} - change: {2}"
         [Obj (JInt (tell w)); Obj (JInt n); Num (ChangeMetric_ratio n (tell w))] ]).
Proof.
  intros He Hs Hn Hw Hg.
  pose proof (use_camera_periodic w s n _ Hs (size_change_of_sizes n (tell w) Hn Hw)) as U.
  cbv zeta in U. rewrite Hg, He in U.
  unfold poll, bind, emit, get_camera_enabled, ret. simpl. rewrite He, U. reflexivity.
Qed.

(** X5.  The baseline follows every periodic capture.  While each capture
    stays at or under the threshold when compared with the capture just
    before it, no turn of the loop uploads or calls Rekognition, however
    far the sizes drift in total, and the remembered size is that of the
    last capture. *)
Theorem slow_drift_never_triggers (ws : list world) (s : attrs) (n : Z) :
  camera_enabled s = Some true -> size s = Some n -> is_size n ->
  calm n ws ->
  let run := polls ws s in
  outcome run = Ok tt
  /\ existsb is_remote (events run) = false
  /\ List.length (filter is_capture (events run)) = List.length ws
  /\ size (final run) = Some (last_size n ws)
  /\ camera_enabled (final run) = Some true.
Proof.
  revert s n. induction ws as [| w ws IH]; intros s n He Hs Hn Hc run; subst run.
  - repeat split; assumption.
  - destruct Hc as (Hw & Hg & Hc).
    cbn [polls]. unfold bind. rewrite (poll_calm w s n He Hs Hn Hw Hg).
    specialize (IH {| size := Some (tell w); camera_enabled := Some true |} (tell w)
                  eq_refl eq_refl Hw Hc).
    cbv zeta in IH. destruct IH as (I1 & I2 & I3 & I4 & I5).
    destruct (polls ws _) as [[r s'] t]. unfold outcome, events, final in *.
    cbn [fst snd] in *. repeat split; try assumption.
    simpl. rewrite I3. reflexivity.
Qed.

Lemma slow_drift_never_triggers_witness :
  let ws := [sample_world 1004 "Person"; sample_world 1008 "Person";
             sample_world 1012 "Person"] in
  let run := polls ws (monitoring 1000) in
  outcome run = Ok tt
  /\ existsb is_remote (events run) = false
  /\ size (final run) = Some 1012.
Proof.
  intros ws run.
  assert (H0 : is_size 1000) by (unfold is_size; lia).
  assert (Hc : calm 1000 ws).
  { unfold ws, calm, is_size; simpl tell.
    repeat split; try lia; vm_compute; reflexivity. }
  destruct (slow_drift_never_triggers ws (monitoring 1000) 1000
              eq_refl eq_refl H0 Hc) as (A & B & _ & C & _).
  repeat split; assumption.
Defined.

(** ** More on the command router *)

Lemma shoot_registers_nothing (w : world) (s : attrs) :
  registered (events (shoot w s)) = [].
Proof.
  unfold shoot. unfold_prog. simpl. split_answers; reflexivity.
Qed.

(** X6.  The "camera" key takes precedence.  A command object that has a
    "camera" key never enrols a face, whatever its other keys are, an
    "index" key included; unless the value is "use" it makes no capture
    and no remote call either, and it returns, except that the print of
    an unknown value raises [UnicodeEncodeError] when stdout cannot
    encode the text of the value, which does not happen for a value of
    ASCII characters. *)
Theorem camera_key_takes_precedence
    (w : world) (m : message) (s : attrs) (d : dict) (state : json) :
  payload m = Parsed (JDict d) ->
  dict_get d "camera" = Some state ->
  let run := message_received w m s in
  registered (events run) = []
  /\ (state <> JStr "use" ->
      existsb is_capture (events run) = false
      /\ existsb is_remote (events run) = false
      /\ outcome run = (if printable w state then Ok tt
                        else Raise UnicodeEncodeError)
      /\ (ascii_value state = true -> outcome run = Ok tt)).
Proof.
  intros Hp Hd run.
  destruct (message_received_events w m s d Hp) as (Ee & _ & Eo).
  subst run. rewrite Ee, Eo. clear Ee Eo.
  rewrite registered_app, !existsb_app. unfold route. rewrite Hd.
  destruct (eq_str state "enable") eqn:U1;
    [apply eq_str_true in U1; subst state;
     split; [| intros _]; repeat split |].
  destruct (eq_str state "disable") eqn:U2;
    [apply eq_str_true in U2; subst state;
     split; [| intros _]; repeat split |].
  destruct (eq_str state "use") eqn:U.
  - split.
    + rewrite use_camera_once. unfold events at 2; simpl.
      apply shoot_registers_nothing.
    + intros N. apply eq_str_true in U. contradiction.
  - unfold print_value, printable.
    destruct (ascii_value state); simpl;
      [split; [| intros _]; repeat split |].
    destruct (stdout_encodes w state); simpl;
      (split; [| intros _]; repeat split; discriminate).
Qed.

Lemma camera_key_takes_precedence_witness :
  let m := {| payload := Parsed (JDict [("index", JStr "bob");
                                        ("camera", JStr "disable")]);
              topic := SUBSCRIBE_TOPIC |} in
  registered (events (message_received (sample_world 1000 "Person") m start)) = [].
Proof.
  intros m.
  exact (proj1 (camera_key_takes_precedence (sample_world 1000 "Person") m start
                  [("index", JStr "bob"); ("camera", JStr "disable")]
                  (JStr "disable") eq_refl eq_refl)).
Defined.

(** X7.  A payload that is JSON but not an object never starts an action:
    the router writes no attribute and makes no capture and no remote
    call.  It returns, having printed the unknown command, when the value
    is a string or a list that has neither "camera" nor "index" in it;
    in every other case it raises [TypeError]. *)
Theorem non_object_payload_takes_no_action
    (w : world) (m : message) (s : attrs) (v : json) :
  payload m = Parsed v ->
  (forall d, v <> JDict d) ->
  let run := message_received w m s in
  final run = s
  /\ existsb is_capture (events run) = false
  /\ existsb is_remote (events run) = false
  /\ (outcome run = Ok tt \/ outcome run = Raise TypeError)
  /\ (outcome run = Ok tt
      <-> py_in "camera" v = Ok false /\ py_in "index" v = Ok false)
  /\ (outcome run = Ok tt ->
      events run = receipt m ++ [Print "Unknown command: {}" [Dumps v]]).
Proof.
  intros Hp Hv run. subst run.
  unfold message_received, receipt, bind, print, emit, lift, outcome, final, events.
  simpl. rewrite Hp. simpl.
  destruct v as [| b | z | f | t | l | d]; simpl;
    try (repeat split; auto; try discriminate; intros [H _]; discriminate).
  - destruct (PyStr.contains "camera" t); simpl;
      [repeat split; auto; try discriminate; intros [H _]; discriminate |].
    destruct (PyStr.contains "index" t); simpl;
      repeat split; auto; try discriminate; intros [_ H]; discriminate.
  - destruct (existsb (fun x => eq_str x "camera") l); simpl;
      [repeat split; auto; try discriminate; intros [H _]; discriminate |].
    destruct (existsb (fun x => eq_str x "index") l); simpl;
      repeat split; auto; try discriminate; intros [_ H]; discriminate.
  - exfalso. exact (Hv d eq_refl).
Qed.

Lemma non_object_payload_takes_no_action_witness :
  let m := {| payload := Parsed (JList [JStr "camera"]); topic := SUBSCRIBE_TOPIC |} in
  let run := message_received (sample_world 1000 "Person") m start in
  final run = start /\ existsb is_capture (events run) = false.
Proof.
  intros m run.
  destruct (non_object_payload_takes_no_action (sample_world 1000 "Person") m start
              (JList [JStr "camera"]) eq_refl
              (fun d (H : JList [JStr "camera"] = JDict d) =>
                 match H in _ = y return match y with JDict _ => False | _ => True end
                 with eq_refl => I end))
    as (A & B & _).
  split; assumption.
Defined.

(** X8.  An "index" command whose value is not a string raises
    [AttributeError] at [capitalize], before any capture: nothing is
    uploaded or registered and no attribute is written. *)
Theorem index_value_must_be_a_string
    (w : world) (m : message) (s : attrs) (d : dict) (value : json) :
  payload m = Parsed (JDict d) ->
  dict_get d "camera" = None ->
  dict_get d "index" = Some value ->
  (forall name, value <> JStr name) ->
  message_received w m s = (Raise AttributeError, s, receipt m).
Proof.
  intros Hp Hc Hi Hv. rewrite (message_received_object w m s d Hp).
  unfold route. rewrite Hc, Hi. unfold bind, lift, outcome, final, events.
  destruct value as [| b | z | f | t | l | d']; simpl; try reflexivity.
  exfalso. exact (Hv t eq_refl).
Qed.

Lemma index_value_must_be_a_string_witness :
  let m := {| payload := Parsed (JDict [("index", JInt 5)]); topic := SUBSCRIBE_TOPIC |} in
  message_received (sample_world 1000 "Person") m start
  = (Raise AttributeError, start, receipt m).
Proof.
  intros m.
  exact (index_value_must_be_a_string (sample_world 1000 "Person") m start
           [("index", JInt 5)] (JInt 5) eq_refl eq_refl eq_refl
           (fun name (H : JInt 5 = JStr name) =>
              match H in _ = y return match y with JStr _ => False | _ => True end
              with eq_refl => I end)).
Defined.

(** X9.  Enrolment stands apart from monitoring.  An "index" command with
    a string name prints the line about the indexing, with the label
    [name.capitalize()], then captures, then uploads the image, then
    registers the face under that label on the key that the upload
    returned, in that order and whether monitoring is on or off; it
    registers nothing when the upload raises.  When stdout cannot encode
    the label, the print raises [UnicodeEncodeError] and nothing is
    captured, uploaded or registered; that does not happen for a name of
    ASCII characters.  In every case the command never runs the analysis
    cascade and writes no attribute, so the baseline of the change
    detector stays as it was. *)
Theorem enrolment_captures_uploads_registers
    (w : world) (m : message) (s : attrs) (d : dict) (name : string) :
  payload m = Parsed (JDict d) ->
  dict_get d "camera" = None ->
  dict_get d "index" = Some (JStr name) ->
  let run := message_received w m s in
  let key := image_key w in
  let label := capitalize w name in
  final run = s
  /\ existsb is_stage_call (events run) = false
  /\ (printable w (JStr label) = true ->
        filter (fun e => is_capture e || is_remote e) (events run)
        = Capture :: PutObject S3_BUCKET key ImageBuffer
          :: (if answered (put_object w key)
              then [IndexFaces REKOGNITION_COLLECTION_ID S3_BUCKET key label ["ALL"]]
              else [])
        /\ (outcome run = Ok tt
            <-> answered (put_object w key) = true
                /\ answered (index_faces w key label) = true))
  /\ (printable w (JStr label) = false ->
        run = (Raise UnicodeEncodeError, s, receipt m))
  /\ (PyStr.ascii_only name = true -> printable w (JStr label) = true).
Proof.
  intros Hp Hc Hi run key label.
  assert (E : run = (outcome (index_face w label s), final (index_face w label s),
                     receipt m ++ events (index_face w label s))).
  { subst run label.
    rewrite (message_received_object w m s d Hp), (route_index w d name s Hc Hi).
    reflexivity. }
  rewrite E. clear E run.
  unfold final, outcome, events. cbn [fst snd].
  split; [exact (index_face_preserves w label s) | split; [| split; [| split]]].
  - rewrite existsb_app. cbn [existsb receipt is_stage_call orb].
    destruct (printable w (JStr label)) eqn:P;
      [| rewrite (index_face_unprintable w label s P); reflexivity].
    unfold index_face, upload_image_and_get_key, take_picture.
    unfold_prog. rewrite P. simpl. split_answers; reflexivity.
  - intros P. rewrite filter_app. subst key. unfold image_key.
    unfold index_face, upload_image_and_get_key, take_picture.
    unfold_prog. rewrite P. simpl.
    destruct (put_object w (S3_IMAGE_KEY (strftime w))); simpl.
    + destruct (index_faces w (S3_IMAGE_KEY (strftime w)) label); simpl;
        repeat split; auto; try discriminate; intros [_ H]; discriminate.
    + repeat split; auto; try discriminate; intros [H _]; discriminate.
  - intros P. rewrite (index_face_unprintable w label s P).
    cbn [fst snd]. rewrite app_nil_r. reflexivity.
  - intros Ha. subst label. unfold capitalize, printable. rewrite Ha.
    cbn [ascii_value]. rewrite (capitalize_ascii_only name Ha). reflexivity.
Qed.

Lemma enrolment_captures_uploads_registers_witness :
  final (message_received (sample_world 1000 "Person") (command "index" "alice")
           (monitoring 1000))
  = monitoring 1000.
Proof.
  exact (proj1 (enrolment_captures_uploads_registers
                  (sample_world 1000 "Person") (command "index" "alice")
                  (monitoring 1000) [("index", JStr "alice")] "alice"
                  eq_refl eq_refl eq_refl)).
Defined.

(** A name that stdout cannot encode is not enrolled: the router raises
    at the print of [index_face], before the capture.  Here the name is
    the lone surrogate U+D800, on a stdout that takes ASCII text only. *)
Example unencodable_name_is_not_enrolled :
  let surrogate := String "237" (String "160" (String "128" EmptyString)) in
  let m := {| payload := Parsed (JDict [("index", JStr surrogate)]);
              topic := SUBSCRIBE_TOPIC |} in
  message_received (sample_world 1000 "Person") m start
  = (Raise UnicodeEncodeError, start, receipt m).
Proof. reflexivity. Qed.

(** X10.  The attributes change in two ways only.  Whatever the message
    is and whatever fails while it is handled, the attributes after
    [message_received] are the ones before it, unless the command is
    "enable", which sets the size to 0 and turns monitoring on, or
    "disable", which turns monitoring off and keeps the size.  So no
    malformed or failed command can turn monitoring on. *)
Theorem attributes_change_by_enable_and_disable_only
    (w : world) (m : message) (s : attrs) :
  let after := final (message_received w m s) in
  (after = s
   \/ (exists d, payload m = Parsed (JDict d)
                 /\ dict_get d "camera" = Some (JStr "enable")
                 /\ after = {| size := Some 0; camera_enabled := Some true |})
   \/ (exists d, payload m = Parsed (JDict d)
                 /\ dict_get d "camera" = Some (JStr "disable")
                 /\ after = {| size := size s; camera_enabled := Some false |}))
  /\ (camera_enabled after = Some true ->
      camera_enabled s = Some true
      \/ exists d, payload m = Parsed (JDict d)
                   /\ dict_get d "camera" = Some (JStr "enable")).
Proof.
  intros after. subst after.
  pose proof (message_received_attrs w m s) as H.
  split; [exact H |].
  intros T. destruct H as [E | [(d & Hp & Hd & _) | (d & _ & _ & E)]].
  - left. rewrite <- E. exact T.
  - right. exists d. split; assumption.
  - rewrite E in T. discriminate.
Qed.

(** ** The decision in bytes *)

Lemma use_camera_periodic_uploads (w : world) (s : attrs) (n : Z) :
  size s = Some n -> is_size n -> is_size (tell w) ->
  existsb is_image_upload (events (use_camera w false s))
  = gt_float (ChangeMetric_ratio n (tell w)) CHANGE_THRESHOLD
  /\ (gt_float (ChangeMetric_ratio n (tell w)) CHANGE_THRESHOLD = false ->
      existsb is_remote (events (use_camera w false s)) = false).
Proof.
  intros Hs Hn Hw.
  pose proof (use_camera_periodic w s n _ Hs (size_change_of_sizes n (tell w) Hn Hw)) as U.
  cbv zeta in U. rewrite U.
  destruct (gt_float _ CHANGE_THRESHOLD).
  - split; [| discriminate]. unfold events at 1; simpl.
    apply (shoot_events w).
  - split; [reflexivity | intros _; reflexivity].
Qed.

Lemma Qmake_le (a c : Z) (b d : positive) :
  a * Z.pos d <= c * Z.pos b -> (a # b <= c # d)%Q.
Proof. intros H. unfold Qle. simpl. exact H. Qed.

(** X11.  The decision of a periodic cycle in terms of the two sizes.  A
    capture whose size differs from the previous one by at most 0.4999 %
    of the previous size makes no upload and no remote call; one that
    differs by at least 0.5001 %, up or down, is uploaded.  An unchanged
    size never triggers, an empty capture always does. *)
Theorem change_in_bytes_decides (w : world) (s : attrs) (previousSize : Z) :
  size s = Some previousSize -> is_size previousSize -> is_size (tell w) ->
  0 < previousSize ->
  let change := Z.abs (tell w - previousSize) in
  let cycle := events (use_camera w false s) in
  (1000000 * change <= 4999 * previousSize ->
     existsb is_image_upload cycle = false /\ existsb is_remote cycle = false)
  /\ (5001 * previousSize <= 1000000 * change ->
      existsb is_image_upload cycle = true).
Proof.
  intros Hs Hp Hw Hpos change cycle.
  destruct (use_camera_periodic_uploads w s previousSize Hs Hp Hw) as [U Q].
  fold cycle in U, Q. rewrite U.
  destruct (trigger_decides_exact_ratio previousSize (tell w) Hp Hw Hpos) as [Up Down].
  cbv zeta in Up, Down. unfold exact_ratio, rounding_margin in Up, Down.
  unfold is_size in Hw. subst change.
  destruct previousSize as [| p | p]; try lia.
  set (c := tell w) in *. clearbody cycle c. clear Hp. destruct Hw as [Hw0 Hw1].
  assert (X : (inject_Z c / inject_Z (Z.pos p) == c # p)%Q)
    by (symmetry; apply Qmake_Qdiv).
  rewrite X in Up, Down. clear X.
  change (1 # 2 ^ 50)%Q with (1 # 1125899906842624)%Q in Up, Down.
  split.
  - intros H.
    assert (L : (995001 # 1000000 <= c # p)%Q) by (apply Qmake_le; lia).
    assert (R : (c # p <= 1004999 # 1000000)%Q) by (apply Qmake_le; lia).
    assert (D : gt_float (ChangeMetric_ratio (Z.pos p) c) CHANGE_THRESHOLD = false).
    { apply Down. destruct (Qabs_cases (1 - (c # p))) as [[? ->] | [? ->]]; lra. }
    split; [exact D | exact (Q D)].
  - intros H. apply Up.
    destruct (Z.le_ge_cases c (Z.pos p)) as [G | G].
    + assert (R : (c # p <= 994999 # 1000000)%Q) by (apply Qmake_le; lia).
      assert (L : (0 <= c # p)%Q) by (apply (Qmake_le 0 c 1 p); lia).
      destruct (Qabs_cases (1 - (c # p))) as [[? ->] | [? ->]]; lra.
    + assert (L : (1005001 # 1000000 <= c # p)%Q) by (apply Qmake_le; lia).
      destruct (Qabs_cases (1 - (c # p))) as [[? ->] | [? ->]]; lra.
Qed.

Lemma change_in_bytes_decides_witness :
  existsb is_image_upload
    (events (use_camera (sample_world 0 "Person") false (monitoring 1000))) = true.
Proof.
  assert (H1 : is_size 1000) by (unfold is_size; lia).
  assert (H2 : is_size (tell (sample_world 0 "Person"))) by (unfold is_size; simpl; lia).
  assert (H3 : 0 < 1000) by lia.
  apply (proj2 (change_in_bytes_decides (sample_world 0 "Person") (monitoring 1000)
                  1000 eq_refl H1 H2 H3)).
  simpl. lia.
Defined.

(** ** What can end the loop *)

Lemma reachable_sized_reachable (s : attrs) : reachable_sized s -> reachable s.
Proof.
  induction 1 as [| s i _ IH _]; [apply reachable_start | apply reachable_step, IH].
Qed.

Lemma reachable_sized_size (s : attrs) (n : Z) :
  reachable_sized s -> size s = Some n -> is_size n.
Proof.
  intros R. revert n. induction R as [| s i R IH Hi]; intros n.
  - discriminate.
  - destruct i as [w | m w]; simpl in *.
    + destruct (poll_final w s) as [-> | [_ ->]]; [apply IH |].
      rewrite use_camera_periodic_final.
      destruct (size s) eqn:E; [intros [= <-]; exact Hi | rewrite E; discriminate].
    + destruct (message_received_final w m s) as [-> | [-> | ->]];
        [apply IH | intros [= <-]; unfold is_size; lia | apply IH].
Qed.

Lemma shoot_outcome (w : world) (s : attrs) :
  outcome (shoot w s) = Ok tt \/ outcome (shoot w s) = Raise ClientError.
Proof.
  unfold shoot. unfold_prog. simpl. split_answers; auto.
Qed.

(** X13.  What can end the loop.  As long as the camera reports sizes
    that a buffer position can take, the size that the program remembers
    is such a size too, and a turn of the loop raises nothing but the
    error of a failed call to S3 or to Rekognition, and that only in a
    turn that went as far as uploading: no division by zero, no overflow,
    no unset attribute and no unassigned local ends the loop, whatever
    commands were handled before. *)
Theorem loop_turn_fails_only_on_a_failed_call (s : attrs) (w : world) :
  reachable_sized s -> is_size (tell w) ->
  (forall n, size s = Some n -> is_size n)
  /\ (outcome (poll w s) = Ok tt
      \/ (outcome (poll w s) = Raise ClientError
          /\ existsb is_image_upload (events (poll w s)) = true)).
Proof.
  intros R Hw. split; [intros n; apply reachable_sized_size, R |].
  destruct (reachable_well_formed s (reachable_sized_reachable s R)) as [[b Hb] Hs].
  unfold poll, bind, emit, get_camera_enabled, outcome, events. simpl. rewrite Hb.
  destruct b; simpl; [| left; reflexivity].
  destruct (Hs Hb) as [n Hn].
  pose proof (reachable_sized_size s n R Hn) as Sn.
  pose proof (use_camera_periodic w s n _ Hn (size_change_of_sizes n (tell w) Sn Hw)) as U.
  cbv zeta in U. rewrite U.
  destruct (gt_float _ CHANGE_THRESHOLD); [| left; reflexivity].
  cbn [fst snd].
  destruct (shoot_outcome w {| size := Some (tell w); camera_enabled := camera_enabled s |})
    as [-> | ->]; [left; reflexivity | right].
  split; [reflexivity |]. simpl. apply (shoot_events w).
Qed.

Lemma loop_turn_fails_only_on_a_failed_call_witness :
  let s := final (step (Tick (sample_world 1000 "Cat"))
             (final (step (Message (command "camera" "enable") (sample_world 0 "Cat"))
                start))) in
  outcome (poll (offline_world 2000) s) = Ok tt
  \/ (outcome (poll (offline_world 2000) s) = Raise ClientError
      /\ existsb is_image_upload (events (poll (offline_world 2000) s)) = true).
Proof.
  intros s.
  assert (H0 : sized (Message (command "camera" "enable") (sample_world 0 "Cat")))
    by (unfold sized, is_size; simpl; lia).
  assert (H1 : sized (Tick (sample_world 1000 "Cat")))
    by (unfold sized, is_size; simpl; lia).
  assert (H2 : is_size (tell (offline_world 2000)))
    by (unfold is_size; simpl; lia).
  exact (proj2 (loop_turn_fails_only_on_a_failed_call s (offline_world 2000)
                  (reachable_sized_step _ _
                     (reachable_sized_step _ _ reachable_sized_start H0) H1) H2)).
Defined.

(** ** The shape of the trace of a step *)

Ltac run_answers :=
  repeat (rewrite_answers; rewrite ?String.eqb_refl; simpl;
          match goal with
          | |- context [match ?x with Some _ => _ | None => _ end] =>
              destruct x eqn:?
          | |- context [if has_person ?l then _ else _] => destruct (has_person l)
          | |- context [if 0 <? ?n then _ else _] => destruct (0 <? n)
          | |- context [if printable ?w ?v then _ else _] => destruct (printable w v)
          end);
  rewrite_answers; rewrite ?String.eqb_refl; simpl.

Lemma use_camera_events (w : world) (once : bool) (s : attrs) :
  exists pre,
    existsb is_remote pre = false
    /\ (events (use_camera w once s) = pre
        \/ exists s', events (use_camera w once s) = pre ++ events (shoot w s')).
Proof.
  destruct once.
  - exists [Capture]. split; [reflexivity | right]. exists s.
    rewrite use_camera_once. reflexivity.
  - destruct (size s) as [n |] eqn:Hs.
    + destruct (size_change_of n (tell w)) as [x | e] eqn:Hx.
      * rewrite (use_camera_periodic w s n x Hs Hx).
        destruct (gt_float x CHANGE_THRESHOLD).
        -- exists [Capture; Print "size: {0} - previous: {1} - change: {2}"
                               [Obj (JInt (tell w)); Obj (JInt n); Num x]].
           split; [reflexivity | right]. eexists. reflexivity.
        -- exists [Capture; Print "size: {0} - previous: {1} - change: {2}"
                               [Obj (JInt (tell w)); Obj (JInt n); Num x]].
           split; [reflexivity | left; reflexivity].
      * exists [Capture]. split; [reflexivity | left].
        unfold use_camera, measure, take_picture, bind, emit, get_size, set_size,
          lift, events. simpl. rewrite Hs. simpl. rewrite Hx. reflexivity.
    + exists [Capture]. split; [reflexivity | left].
      unfold use_camera, measure, take_picture, bind, emit, get_size, events.
      simpl. rewrite Hs. reflexivity.
Qed.

(** The trace of a step is a stretch without remote calls, followed by
    nothing, by an upload with its analysis, or by an enrolment. *)
Lemma step_events (i : input) (s : attrs) :
  exists pre post,
    events (step i s) = pre ++ post
    /\ existsb is_remote pre = false
    /\ (post = []
        \/ (exists s', post = events (shoot (answers i) s'))
        \/ (exists name s', post = events (index_face (answers i) name s'))).
Proof.
  destruct i as [w | m w]; simpl.
  - unfold poll, bind, emit, get_camera_enabled, events. simpl.
    destruct (camera_enabled s) as [[|] |]; simpl;
      try (eexists _, []; rewrite app_nil_r; repeat split; auto; fail).
    destruct (use_camera_events w false s) as (pre & Hq & [E | [s' E]]);
      destruct (use_camera w false s) as [[r s1] t]; unfold events in E at 1;
      simpl in E; subst t; simpl.
    + exists (Sleep SLEEP_TIME :: pre), []. rewrite app_nil_r. auto.
    + exists (Sleep SLEEP_TIME :: pre), (events (shoot w s')).
      split; [reflexivity |]. split; [exact Hq |].
      right; left. exists s'. reflexivity.
  - destruct (payload m) as [| | v] eqn:Hp.
    + eexists _, []. rewrite app_nil_r.
      unfold message_received, bind, print, emit, lift, events. simpl.
      rewrite Hp. simpl. repeat split; auto.
    + rewrite (message_received_not_json w m s Hp).
      exists (receipt m), []. rewrite app_nil_r. repeat split; auto.
    + destruct v as [| b | z | f | t | l | d];
        try (eexists _, []; rewrite app_nil_r;
             unfold message_received, bind, print, emit, lift, events; simpl;
             rewrite Hp; simpl; repeat split; auto; fail).
      * unfold message_received, bind, print, emit, lift, events. simpl.
        rewrite Hp. simpl.
        destruct (PyStr.contains "camera" t); simpl;
          [eexists _, []; rewrite app_nil_r; repeat split; auto |].
        destruct (PyStr.contains "index" t); simpl;
          eexists _, []; rewrite app_nil_r; repeat split; auto.
      * unfold message_received, bind, print, emit, lift, events. simpl.
        rewrite Hp. simpl.
        destruct (existsb _ l); simpl;
          [eexists _, []; rewrite app_nil_r; repeat split; auto |].
        destruct (existsb _ l); simpl;
          eexists _, []; rewrite app_nil_r; repeat split; auto.
      * rewrite (message_received_object w m s d Hp). unfold events at 1; simpl.
        unfold route.
        destruct (dict_get d "camera") as [state |].
        -- destruct (eq_str state "enable");
             [exists (receipt m ++ events (enable_camera s)), [];
              rewrite app_nil_r; repeat split; auto |].
           destruct (eq_str state "disable");
             [exists (receipt m ++ events (disable_camera s)), [];
              rewrite app_nil_r; repeat split; auto |].
           destruct (eq_str state "use").
           ++ exists (receipt m ++ [Capture]), (events (shoot w s)).
              rewrite use_camera_once. unfold events at 1; simpl.
              split; [reflexivity |]. split; [reflexivity |].
              right; left. exists s. reflexivity.
           ++ exists (receipt m
                      ++ events (print_value w "Unknown camera state: {}" state s)), [].
              rewrite app_nil_r. split; [reflexivity |]. split; [| left; reflexivity].
              unfold print_value. destruct (printable w state); reflexivity.
        -- destruct (dict_get d "index") as [value |].
           ++ destruct (py_capitalize w value) as [name | e].
              ** exists (receipt m), (events (index_face w name s)).
                 split; [| split; [reflexivity |]].
                 --- unfold bind, lift, events. simpl.
                     destruct (index_face w name s) as [[r s'] t']. reflexivity.
                 --- right; right. exists name, s. reflexivity.
              ** exists (receipt m), []. repeat split; auto.
           ++ eexists (receipt m ++ _), []. rewrite app_nil_r. repeat split; auto.
Qed.

Lemma quiet_put_under_its_key (w : world) (t : list event) :
  existsb is_remote t = false -> forallb (put_under_its_key w) t = true.
Proof.
  induction t as [| e t IH]; [reflexivity |]. simpl.
  destruct e; simpl; try discriminate; exact IH.
Qed.

Lemma uploads_first_quiet (w : world) (uploaded : list string) (pre t : list event) :
  existsb is_remote pre = false ->
  uploads_first w uploaded (pre ++ t) = uploads_first w uploaded t.
Proof.
  induction pre as [| e pre IH]; [reflexivity |]. simpl.
  destruct e; simpl; try discriminate; exact IH.
Qed.

Lemma shoot_put_under_its_key (w : world) (s : attrs) :
  forallb (put_under_its_key w) (events (shoot w s)) = true.
Proof.
  unfold shoot, image_key. unfold_prog. run_answers; reflexivity.
Qed.

Lemma index_face_put_under_its_key (w : world) (name : string) (s : attrs) :
  forallb (put_under_its_key w) (events (index_face w name s)) = true.
Proof.
  unfold image_key, index_face. unfold_prog. run_answers; reflexivity.
Qed.

Lemma shoot_uploads_first (w : world) (s : attrs) :
  uploads_first w [] (events (shoot w s)) = true.
Proof.
  unfold shoot. unfold_prog.
  set (key := S3_IMAGE_KEY (strftime w)). clearbody key.
  run_answers; reflexivity.
Qed.

Lemma index_face_uploads_first (w : world) (name : string) (s : attrs) :
  uploads_first w [] (events (index_face w name s)) = true.
Proof.
  unfold index_face. unfold_prog.
  set (key := S3_IMAGE_KEY (strftime w)). clearbody key.
  run_answers; reflexivity.
Qed.

Lemma length_append (a b : string) :
  String.length (a ++ b) = (String.length a + String.length b)%nat.
Proof. induction a as [| c a IH]; simpl; [reflexivity | rewrite IH; reflexivity]. Qed.

Lemma append_inj_r (a b t : string) : (a ++ t)%string = (b ++ t)%string -> a = b.
Proof.
  revert b. induction a as [| c a IH]; intros [| c' b] H; simpl in H.
  - reflexivity.
  - apply (f_equal String.length) in H. simpl in H. rewrite length_append in H. lia.
  - apply (f_equal String.length) in H. simpl in H. rewrite length_append in H. lia.
  - injection H as -> H. rewrite (IH b H). reflexivity.
Qed.

(** X12.  Images and the record of an analysis never share a key.  In
    every step, whatever the state and the input, each [put_object]
    stores either the image buffer under the image key of that step or a
    JSON text under [S3_SEEN_KEY], in [S3_BUCKET].  No timestamp makes the
    image key equal to [S3_SEEN_KEY], so no image overwrites the record,
    and images with different timestamps get different keys. *)
Theorem images_and_record_never_share_a_key (i : input) (s : attrs) :
  forallb (put_under_its_key (answers i)) (events (step i s)) = true
  /\ image_key (answers i) <> S3_SEEN_KEY
  /\ (forall w, image_key (answers i) = image_key w ->
        strftime (answers i) = strftime w).
Proof.
  split; [| split].
  - destruct (step_events i s) as (pre & post & -> & Hq & Hpost).
    rewrite forallb_app, (quiet_put_under_its_key _ pre Hq). simpl.
    destruct Hpost as [-> | [[s' ->] | (name & s' & ->)]].
    + reflexivity.
    + apply shoot_put_under_its_key.
    + apply index_face_put_under_its_key.
  - unfold image_key, S3_IMAGE_KEY, S3_SEEN_KEY. simpl. intros H. discriminate H.
  - intros w. unfold image_key, S3_IMAGE_KEY. simpl. intros H.
    injection H as H. exact (append_inj_r _ _ _ H).
Qed.

(** X14.  Nothing is analysed or enrolled that was not stored first.  In
    every step, whatever the state and the input, each call to
    Rekognition names an image key whose [put_object] was made earlier in
    the same step and returned. *)
Theorem analysis_only_of_stored_images (i : input) (s : attrs) :
  uploads_first (answers i) [] (events (step i s)) = true.
Proof.
  destruct (step_events i s) as (pre & post & -> & Hq & Hpost).
  rewrite (uploads_first_quiet _ _ pre post Hq).
  destruct Hpost as [-> | [[s' ->] | (name & s' & ->)]].
  - reflexivity.
  - apply shoot_uploads_first.
  - apply index_face_uploads_first.
Qed.
